(** * KWS.py: keyword detection and scoring

    A shallow embedding of [KWS.py]: [detect_keywords], [compute_accuracy],
    [compute_individual_keyword_metrics] and their callers [audio_to_text]
    and [main].  Audio conversion, transcription, the reading of the wav
    file and plotting are calls into libraries: they are parameters of the
    callers, seen through their outcomes.

    Modelling conventions.
    - A Python [str] is a Rocq [string]; one Rocq character stands for one
      Python character (a code point below 256).  On such strings
      [str.lower] acts character by character, see [lower].
    - A Python [int] is a [Z]; [len] returns [Z.of_nat] of a length.
    - A [dict] with [str] keys is a [gmap string _]; a [set] is a [gset].
      The order of a dict shows in one place, the loop of [main] over the
      metrics; it is taken from the keyword list, see [insertion_order].
    - A raised exception ends the call: functions return a [result].
    - [print] appends a line to the [stdout] field of the loop state.
    - A [float] is a member of a carrier [R] with the operations of
      [Number]; the carriers are [Q] and binary64. *)

From Stdlib Require Import PrimFloat.
From Stdlib Require Import ZArith Ascii String QArith Lqa.
From Stdlib Require FloatOps FloatAxioms SpecFloat Uint63.
From stdpp Require Import gmap strings list fin_maps.

Local Open Scope string_scope.
Local Open Scope list_scope.
Local Open Scope Z_scope.

(** * Part I: the program *)

(** ** Exceptions *)

Inductive exn : Type :=
| KeyError (key : string)
| ZeroDivisionError.

Inductive result (A : Type) : Type :=
| Ok (a : A)
| Raise (e : exn).
Arguments Ok {A} a.
Arguments Raise {A} e.

#[global] Instance result_bind : MBind result :=
  fun A B f r => match r with Ok a => f a | Raise e => Raise e end.

(** [for x in xs: st = body st x], stopping at the first exception. *)
Fixpoint for_each {A S : Type} (body : S -> A -> result S) (st : S)
    (xs : list A) : result S :=
  match xs with
  | [] => Ok st
  | x :: xs' => st' ← body st x; for_each body st' xs'
  end.

(** ** Built-in string operations *)

(** [str.lower] on one character: the upper-case letters below code point
    256 are A-Z (65-90) and the Latin-1 capitals 192-222 except 215, the
    multiplication sign; each has its lower-case form 32 places up. *)
Definition lower_char (c : ascii) : ascii :=
  let n := nat_of_ascii c in
  if ((65 <=? n) && (n <=? 90) ||
      (192 <=? n) && (n <=? 222) && negb (n =? 215))%nat
  then ascii_of_nat (n + 32) else c.

Fixpoint lower (s : string) : string :=
  match s with
  | EmptyString => EmptyString
  | String c s' => String (lower_char c) (lower s')
  end.

(** [len(s)] *)
Definition len (s : string) : Z := Z.of_nat (String.length s).

(** [s.find(sub)]: the lowest index at which [sub] occurs in [s], or [-1]. *)
Definition find (s sub : string) : Z :=
  match String.index 0 sub s with
  | Some i => Z.of_nat i
  | None => -1
  end.

(** An index of a slice, brought into [0 .. n] the way Python does it:
    a negative index counts from the end, everything is clamped. *)
Definition slice_index (n : nat) (i : Z) : nat :=
  Z.to_nat (Z.min (Z.of_nat n) (Z.max 0 (if i <? 0 then i + Z.of_nat n else i))).

(** [s[i:j]] *)
Definition slice (s : string) (i j : Z) : string :=
  let a := slice_index (String.length s) i in
  let b := slice_index (String.length s) j in
  String.substring a (b - a) s.

(** Truth value of [transcription], which is [None] or a [str]. *)
Definition truthy (transcription : option string) : bool :=
  match transcription with
  | Some (String _ _) => true
  | _ => false
  end.

(** ** detect_keywords (lines 41-60) *)

(** The three values [detect_keywords] builds and returns, and the lines it
    prints on the way. *)
Record detection : Type := Detection {
  keyword_intervals : list (string * Z * Z);
  detected_keywords : list string;
  keyword_positions : gmap string (list (Z * Z));
  stdout : list string
}.

(** [{keyword: [] for keyword in keywords}] *)
Definition empty_positions (keywords : list string) : gmap string (list (Z * Z)) :=
  foldl (fun d keyword => <[keyword := []]> d) ∅ keywords.

(** The body of the [for] loop.  The two [append]s of lines 55-56 come
    before the subscript of line 57, which raises [KeyError] when the
    lower-cased keyword is no key of the dict. *)
Definition detect_body (transcription : string) (st : detection)
    (keyword : string) : result detection :=
  let keyword := lower keyword in
  let start := find transcription keyword in
  if negb (start =? -1) then
    let end_ := start + len keyword in
    let intervals := keyword_intervals st ++ [(keyword, start, end_)] in
    let detected := detected_keywords st ++ [keyword] in
    match keyword_positions st !! keyword with
    | Some l =>
        Ok (Detection intervals detected
              (<[keyword := l ++ [(start, end_)]]> (keyword_positions st))
              (stdout st))
    | None => Raise (KeyError keyword)
    end
  else
    Ok (Detection (keyword_intervals st) (detected_keywords st)
          (keyword_positions st)
          (stdout st ++ ["Keyword '" +:+ keyword +:+ "' not found."])).

Definition detect_keywords (transcription : option string)
    (keywords : list string) : result detection :=
  let st := Detection [] [] (empty_positions keywords) [] in
  match transcription with
  | Some t =>
      if truthy transcription
      then for_each (detect_body (lower t)) st keywords
      else Ok st
  | None => Ok st
  end.

(** ** Numbers of the metrics

    The metrics are Python [float]s, and the fallback [0] is an [int] of the
    same value.  The scoring functions are written once over an interface
    of the operations they use and read at two carriers: [Q], where every
    operation is exact, and [float], the binary64 numbers Python computes
    with.  An [int] enters through [of_int]; on binary64 this is exact
    below 2^53, far above any list length. *)

Class Number (R : Type) : Type := {
  of_int : Z -> R;
  add : R -> R -> R;
  mul : R -> R -> R;
  quotient : R -> R -> R;
  is_zero : R -> bool;
  positive : R -> bool;
  positive_not_zero : forall x, positive x = true -> is_zero x = false
}.

(** [x > 0] on rationals *)
Definition Q_positive (x : Q) : bool :=
  match (0 ?= x)%Q with Lt => true | _ => false end.

Lemma Q_positive_not_zero (x : Q) : Q_positive x = true -> Qeq_bool x 0 = false.
Proof.
  unfold Q_positive. destruct (0 ?= x)%Q eqn:Hc; try done. intros _.
  apply Qlt_alt in Hc. apply not_true_is_false. intros He.
  apply Qeq_bool_iff in He. rewrite He in Hc. by apply Qlt_irrefl in Hc.
Qed.

#[global] Instance Q_number : Number Q := {|
  of_int := inject_Z;
  add := Qplus;
  mul := Qmult;
  quotient := Qdiv;
  is_zero := fun x => Qeq_bool x 0;
  positive := Q_positive;
  positive_not_zero := Q_positive_not_zero
|}.

(** [float(z)] *)
Definition float_of_int (z : Z) : float :=
  if z <? 0 then PrimFloat.opp (PrimFloat.of_uint63 (Uint63.of_Z (- z)))
  else PrimFloat.of_uint63 (Uint63.of_Z z).

Lemma float_positive_not_zero (x : float) :
  PrimFloat.ltb PrimFloat.zero x = true -> PrimFloat.eqb x PrimFloat.zero = false.
Proof.
  rewrite FloatAxioms.ltb_spec, FloatAxioms.eqb_spec.
  change (FloatOps.Prim2SF PrimFloat.zero) with (SpecFloat.S754_zero false).
  by destruct (FloatOps.Prim2SF x) as [[]|[]| |[] ? ?].
Qed.

#[global] Instance float_number : Number float := {|
  of_int := float_of_int;
  add := PrimFloat.add;
  mul := PrimFloat.mul;
  quotient := PrimFloat.div;
  is_zero := fun x => PrimFloat.eqb x PrimFloat.zero;
  positive := fun x => PrimFloat.ltb PrimFloat.zero x;
  positive_not_zero := float_positive_not_zero
|}.

(** ** The scoring functions *)

Section Scoring.
Context {R : Type} `{Number R}.

(** [a / b] on two [int]s *)
Definition int_truediv (a b : Z) : result R :=
  if b =? 0 then Raise ZeroDivisionError
  else Ok (quotient (of_int a) (of_int b)).

(** [x / y] on two [float]s *)
Definition float_truediv (x y : R) : result R :=
  if is_zero y then Raise ZeroDivisionError else Ok (quotient x y).

(** [true_positives / (true_positives + other)
     if (true_positives + other) > 0 else 0],
    the expression of lines 70, 71, 86 and 87. *)
Definition ratio_of (true_positives other : Z) : result R :=
  if true_positives + other >? 0
  then int_truediv true_positives (true_positives + other)
  else Ok (of_int 0).

(** [2 * (precision * recall) / (precision + recall)
     if (precision + recall) > 0 else 0],
    the expression of lines 72 and 88. *)
Definition f1_of (precision recall : R) : result R :=
  if positive (add precision recall)
  then float_truediv (mul (of_int 2) (mul precision recall)) (add precision recall)
  else Ok (of_int 0).

(** *** compute_accuracy (lines 62-74) *)

Definition compute_accuracy (detected_keywords keywords : list string)
    : result (R * R * R) :=
  let true_positives :=
    Z.of_nat (size (list_to_set detected_keywords ∩ list_to_set keywords
                    : gset string)) in
  let false_positives := Z.of_nat (length detected_keywords) - true_positives in
  let false_negatives := Z.of_nat (length keywords) - true_positives in
  precision ← ratio_of true_positives false_positives;
  recall ← ratio_of true_positives false_negatives;
  f1_score ← f1_of precision recall;
  Ok (precision, recall, f1_score).

(** *** compute_individual_keyword_metrics (lines 76-99) *)

(** The dict stored for one keyword. *)
Record keyword_metric : Type := KeywordMetric {
  precision : R;
  recall : R;
  f1_score : R;
  true_positives : Z;
  false_positives : Z;
  false_negatives : Z
}.

(** [for k in keyword_positions]: the keys of the dict. *)
Definition keys {V : Type} (d : gmap string V) : list string := (map_to_list d).*1.

(** [len(keyword_positions.get(keyword, []))] *)
Definition occurrences (keyword_positions : gmap string (list (Z * Z)))
    (keyword : string) : Z :=
  Z.of_nat (length (default [] (keyword_positions !! keyword))).

(** [sum(len(keyword_positions.get(k, [])) for k in keyword_positions if k != keyword)] *)
Definition occurrences_of_others (keyword_positions : gmap string (list (Z * Z)))
    (keyword : string) : Z :=
  foldr Z.add 0
    (occurrences keyword_positions <$>
       filter (fun k => k <> keyword) (keys keyword_positions)).

Definition metrics_body (keyword_positions : gmap string (list (Z * Z)))
    (keyword_metrics : gmap string keyword_metric) (keyword : string)
    : result (gmap string keyword_metric) :=
  let true_positives := occurrences keyword_positions keyword in
  let false_positives := occurrences_of_others keyword_positions keyword in
  let false_negatives := if true_positives =? 0 then 1 else 0 in
  precision ← ratio_of true_positives false_positives;
  recall ← ratio_of true_positives false_negatives;
  f1_score ← f1_of precision recall;
  Ok (<[keyword := KeywordMetric precision recall f1_score
                     true_positives false_positives false_negatives]>
        keyword_metrics).

Definition compute_individual_keyword_metrics
    (keyword_positions : gmap string (list (Z * Z))) (keywords : list string)
    : result (gmap string keyword_metric) :=
  for_each (metrics_body keyword_positions) ∅ keywords.

(** *** The time mapper of [main] (lines 161-166) *)

(** [audio_duration = len(_) / sample_rate] *)
Definition audio_duration_of (samples sample_rate : Z) : result R :=
  int_truediv samples sample_rate.

(** One element of the list comprehension of line 166:
    [(keyword, start / len(transcription) * audio_duration,
      end / len(transcription) * audio_duration)]. *)
Definition interval_in_time (transcription : string) (audio_duration : R)
    (interval : string * Z * Z) : result (string * R * R) :=
  let '(keyword, start, end_) := interval in
  a ← int_truediv start (len transcription);
  b ← int_truediv end_ (len transcription);
  Ok (keyword, mul a audio_duration, mul b audio_duration).

Fixpoint keyword_intervals_in_time (transcription : string) (audio_duration : R)
    (keyword_intervals : list (string * Z * Z)) : result (list (string * R * R)) :=
  match keyword_intervals with
  | [] => Ok []
  | interval :: rest =>
      x ← interval_in_time transcription audio_duration interval;
      xs ← keyword_intervals_in_time transcription audio_duration rest;
      Ok (x :: xs)
  end.

End Scoring.

Arguments keyword_metric R : clear implicits.

(** ** The callers: audio_to_text (lines 19-39) and main (lines 129-175)

    Both call into libraries: converting and reading audio, speech
    recognition, reading a wav file, plotting.  A library call is seen
    through its outcome, a value or an exception, and the calls are
    parameters of the model.  [preprocess_audio] (lines 10-17) and
    [plot_waveform_with_keywords] (lines 101-127) consist of library calls
    only and are two of these parameters. *)

(** What a library call raises: the two exceptions of speech_recognition
    that [audio_to_text] names, or any other [Exception]; each carries its
    text, [str(e)]. *)
Inductive library_exception : Type :=
| UnknownValueError (message : string)
| RequestError (message : string)
| OtherException (message : string).

Definition str (e : library_exception) : string :=
  match e with
  | UnknownValueError message | RequestError message | OtherException message =>
      message
  end.

Inductive outcome (A : Type) : Type :=
| Returns (a : A)
| Raises (e : library_exception).
Arguments Returns {A} a.
Arguments Raises {A} e.

(** How a run of [main] ends: it completes, or an exception leaves it, one
    of a library or one of the program's own code. *)
Inductive exception : Type :=
| Library (e : library_exception)
| Builtin (e : exn).

Inductive ended (A : Type) : Type :=
| Completed (a : A)
| Crashed (e : exception).
Arguments Completed {A} a.
Arguments Crashed {A} e.

#[global] Instance ended_bind : MBind ended :=
  fun A B f r => match r with Completed a => f a | Crashed e => Crashed e end.

Definition library {A : Type} (o : outcome A) : ended A :=
  match o with Returns a => Completed a | Raises e => Crashed (Library e) end.

Definition builtin {A : Type} (r : result A) : ended A :=
  match r with Ok a => Completed a | Raise e => Crashed (Builtin e) end.

(** [for keyword, metrics in keyword_metrics.items()]: a dict keeps its
    keys in the order of their first insertion. *)
Fixpoint insertion_order (keywords : list string) : list string :=
  match keywords with
  | [] => []
  | k :: rest => k :: filter (fun k' => k' <> k) (insertion_order rest)
  end.

Section Callers.
Context {R : Type} `{Number R}.

(** What a completed run of [main] has done, in order.  A [print] of text
    is kept as its line; a [print] that formats numbers is kept with the
    numbers, not with their digits. *)
Inductive event : Type :=
| Text (line : string)
| Score (label : string) (value : R)
| Count (label : string) (value : Z)
| Found (keyword : string) (start end_ : R)
| Plot (audio_file : string) (keyword_intervals_in_time : list (string * R * R)).

(** The recording the recognizer works on. *)
Variable audio : Type.
(** [with sr.AudioFile(audio_file) as source: audio = recognizer.record(source)] *)
Variable record : string -> outcome audio.
(** [recognizer.recognize_google(audio, language=language)] *)
Variable recognize_google : audio -> string -> outcome string.
(** [preprocess_audio(input_file, output_file)] *)
Variable preprocess_audio : string -> string -> outcome unit.
(** [wavfile.read(audio_file)], as the sample rate and the number of samples *)
Variable wavfile_read : string -> outcome (Z * Z).
(** [plot_waveform_with_keywords(audio_file, keyword_intervals_in_time)] *)
Variable plot_waveform_with_keywords :
  string -> list (string * R * R) -> outcome unit.

(** The outer [try] block (lines 24-36): the lines it prints and how it
    ends.  The inner [try] catches the two named exceptions of
    [recognize_google]; anything else leaves the block. *)
Definition audio_to_text_try (audio_file language : string)
    : list string * outcome (option string) :=
  match record audio_file with
  | Raises e => ([], Raises e)
  | Returns a =>
      let out := ["Audio successfully read from file."] in
      match recognize_google a language with
      | Returns text => (out ++ ["Recognized text: " +:+ text], Returns (Some text))
      | Raises (UnknownValueError _) =>
          (out ++ ["Google Speech Recognition could not understand audio"],
           Returns None)
      | Raises (RequestError e) =>
          (out ++ ["Could not request results from Google Speech Recognition service; "
                   +:+ e],
           Returns None)
      | Raises e => (out, Raises e)
      end
  end.

(** [audio_to_text]: the block above under [except Exception as e]. *)
Definition audio_to_text (audio_file language : string)
    : list string * option string :=
  match audio_to_text_try audio_file language with
  | (out, Returns text) => (out, text)
  | (out, Raises e) => (out ++ ["Failed to read audio file: " +:+ str e], None)
  end.

(** The seven lines printed for one keyword (lines 153-159). *)
Definition metric_lines (keyword : string) (metrics : keyword_metric R) : list event :=
  [ Text ("Keyword '" +:+ keyword +:+ "':");
    Score "  Precision" (precision metrics);
    Score "  Recall" (recall metrics);
    Score "  F1 Score" (f1_score metrics);
    Count "  True Positives" (true_positives metrics);
    Count "  False Positives" (false_positives metrics);
    Count "  False Negatives" (false_negatives metrics) ].

(** The loop of lines 152-159 over the dict of metrics. *)
Definition all_metric_lines (keyword_metrics : gmap string (keyword_metric R))
    (keywords : list string) : list event :=
  mjoin ((fun keyword =>
            match keyword_metrics !! keyword with
            | Some metrics => metric_lines keyword metrics
            | None => []
            end) <$> insertion_order keywords).

(** [main]: what a completed run has printed and plotted, or the exception
    that ends it. *)
Definition main (input_audio_file output_audio_file : string)
    (keywords : list string) (language : string) : ended (list event) :=
  _ ← library (preprocess_audio input_audio_file output_audio_file);
  let '(heard, transcription) := audio_to_text output_audio_file language in
  if truthy transcription then
    let text := default "" transcription in
    d ← builtin (detect_keywords transcription keywords);
    '(precision, recall, f1_score) ←
      builtin (compute_accuracy (detected_keywords d) keywords);
    keyword_metrics ←
      builtin (compute_individual_keyword_metrics (keyword_positions d) keywords);
    '(sample_rate, samples) ← library (wavfile_read output_audio_file);
    audio_duration ← builtin (audio_duration_of samples sample_rate);
    keyword_intervals_in_time ←
      builtin (keyword_intervals_in_time text audio_duration (keyword_intervals d));
    _ ← library (plot_waveform_with_keywords output_audio_file
                   keyword_intervals_in_time);
    Completed
      ((Text <$> heard)
       ++ [Text ("Transcription: " +:+ text)]
       ++ (Text <$> stdout d)
       ++ [Score "Overall Precision" precision;
           Score "Overall Recall" recall;
           Score "Overall F1 Score" f1_score]
       ++ all_metric_lines keyword_metrics keywords
       ++ [Plot output_audio_file keyword_intervals_in_time]
       ++ ((fun '(keyword, start, end_) => Found keyword start end_)
             <$> keyword_intervals_in_time))
  else
    Completed
      ((Text <$> heard)
       ++ [Text "No transcription available. Check if the audio file contains clear speech and is in a compatible format."]).

End Callers.

Arguments audio_to_text_try {audio} record recognize_google audio_file language.
Arguments audio_to_text {audio} record recognize_google audio_file language.
Arguments main {R _ audio} record recognize_google preprocess_audio wavfile_read
  plot_waveform_with_keywords input_audio_file output_audio_file keywords language.

(** * Part II: the vocabulary of the statements *)

(** ** Detection *)

(** The lower-cased keywords that occur in the transcript [t], in the
    order of the keyword list, one entry per entry of the list. *)
Definition found (t : string) (keywords : list string) : list string :=
  filter (fun k => find t k <> -1) (lower <$> keywords).

(** The entry recorded for a lower-cased keyword: its first match. *)
Definition position_of (t k : string) : Z * Z := (find t k, find t k + len k).
Definition occurrence_of (t k : string) : string * Z * Z :=
  (k, find t k, find t k + len k).

(** How often [k] stands in a list. *)
Definition times (k : string) (ks : list string) : nat :=
  length (filter (fun k' => k' = k) ks).

(** The keywords a call detects: none without a transcript. *)
Definition detections (transcription : option string) (keywords : list string)
    : list string :=
  match transcription with
  | Some (String _ _ as t) => found (lower t) keywords
  | _ => []
  end.

(** The lower-cased transcript the offsets refer to. *)
Definition lowered (transcription : option string) : string :=
  lower (default "" transcription).


(** ** Scoring *)

(** The three counts of [compute_accuracy]. *)
Definition accuracy_tp (detected keywords : list string) : Z :=
  Z.of_nat (size (list_to_set detected ∩ list_to_set keywords : gset string)).
Definition accuracy_fp (detected keywords : list string) : Z :=
  Z.of_nat (length detected) - accuracy_tp detected keywords.
Definition accuracy_fn (detected keywords : list string) : Z :=
  Z.of_nat (length keywords) - accuracy_tp detected keywords.

(** The distinct detected keywords that are also asked for, as a list. *)
Definition common (detected keywords : list string) : list string :=
  remove_dups (filter (fun k => k ∈ keywords) detected).

(** All occurrences a dict records, over all its keys. *)
Definition recorded (kp : gmap string (list (Z * Z))) : Z :=
  foldr Z.add 0 (occurrences kp <$> keys kp).

(** The aggregate counts in the words of the specification: true positives
    are the distinct keywords that are both detected and asked for; false
    positives and false negatives are what is left of the two lists. *)
Definition spec_true_positives (detected keywords : list string) : Z :=
  Z.of_nat (length (common detected keywords)).
Definition spec_false_positives (detected keywords : list string) : Z :=
  Z.of_nat (length detected) - spec_true_positives detected keywords.
Definition spec_false_negatives (detected keywords : list string) : Z :=
  Z.of_nat (length keywords) - spec_true_positives detected keywords.

Section Vocabulary.
Context {R : Type} `{Number R}.

(** [x / y if y > 0 else 0] on [int]s, and the F1 formula, as values: no
    exception is in sight any more. *)
Definition guarded_ratio (x y : Z) : R :=
  if y >? 0 then quotient (of_int x) (of_int y) else of_int 0.
Definition guarded_f1 (p r : R) : R :=
  if positive (add p r) then quotient (mul (of_int 2) (mul p r)) (add p r)
  else of_int 0.

(** The entry [compute_individual_keyword_metrics] stores for a keyword. *)
Definition metric_of (kp : gmap string (list (Z * Z))) (k : string)
    : keyword_metric R :=
  let tp := occurrences kp k in
  let fp := occurrences_of_others kp k in
  let fn := if tp =? 0 then 1 else 0 in
  let p := guarded_ratio tp (tp + fp) in
  let r := guarded_ratio tp (tp + fn) in
  KeywordMetric p r (guarded_f1 p r) tp fp fn.

(** Precision, recall and F1 in the words of the specification. *)
Definition spec_precision (detected keywords : list string) : R :=
  guarded_ratio (spec_true_positives detected keywords)
    (spec_true_positives detected keywords + spec_false_positives detected keywords).
Definition spec_recall (detected keywords : list string) : R :=
  guarded_ratio (spec_true_positives detected keywords)
    (spec_true_positives detected keywords + spec_false_negatives detected keywords).
Definition spec_f1 (detected keywords : list string) : R :=
  guarded_f1 (spec_precision detected keywords) (spec_recall detected keywords).

(** [time = offset / transcript_length * audio_duration] *)
Definition spec_time (offset transcript_length : Z) (audio_duration : R) : R :=
  mul (quotient (of_int offset) (of_int transcript_length)) audio_duration.

End Vocabulary.

(** ** Exhaustive checks in binary64 *)





(** ** More vocabulary for the detector *)

(** The line printed for a lower-cased keyword that is not found. *)
Definition not_found_line (k : string) : string :=
  "Keyword '" +:+ k +:+ "' not found.".

(** The lines printed for the transcript [t]: one for each entry of the
    keyword list that does not occur, in the order of the list. *)
Definition not_found_lines (t : string) (keywords : list string) : list string :=
  not_found_line <$> filter (fun k => find t k = -1) (lower <$> keywords).

(** ** Vocabulary for the runs of main *)

(** The plots of a run, as the file and the intervals drawn. *)
Definition plots {R : Type} (trace : list (event (R := R)))
    : list (string * list (string * R * R)) :=
  omap (fun ev => match ev with Plot f l => Some (f, l) | _ => None end) trace.

(** The intervals a run reports in its lines "found between". *)
Definition reported {R : Type} (trace : list (event (R := R)))
    : list (string * R * R) :=
  omap (fun ev => match ev with Found k s e => Some (k, s, e) | _ => None end) trace.

(** The notice of line 175. *)
Definition no_transcription_line : string :=
  "No transcription available. Check if the audio file contains clear speech and is in a compatible format.".


(** ** Libraries for the examples

    The recording is read, the recognizer answers with a given outcome, the
    preprocessing and the plot succeed, and the wav file holds [samples]
    samples at the rate [sample_rate]. *)
Definition example_record : string -> outcome unit := fun _ => Returns tt.

Definition example_recognize (answer : outcome string)
    : unit -> string -> outcome string :=
  fun _ _ => answer.

Definition example_preprocess : string -> string -> outcome unit :=
  fun _ _ => Returns tt.

Definition example_wavfile (sample_rate samples : Z) : string -> outcome (Z * Z) :=
  fun _ => Returns (sample_rate, samples).

Definition example_plot : string -> list (string * Q * Q) -> outcome unit :=
  fun _ _ => Returns tt.

(** [main] on these libraries, with the file names of the example usage. *)
Definition example_main (answer : outcome string) (sample_rate samples : Z)
    (keywords : list string) : ended (list (event (R := Q))) :=
  main example_record (example_recognize answer) example_preprocess
    (example_wavfile sample_rate samples) example_plot
    "Telugu_Voice.mp3" "processed_audio.wav" keywords "te".

(** * Part III: lemmas *)

(** ** The string operations *)


Lemma lower_char_idem (c : ascii) : lower_char (lower_char c) = lower_char c.
Proof. by destruct c as [[] [] [] [] [] [] [] []]. Qed.

Lemma lower_idem (s : string) : lower (lower s) = lower s.
Proof. induction s as [|c s IH]; simpl; [done|]. by rewrite lower_char_idem, IH. Qed.



Lemma prefix_length (sub s : string) :
  String.prefix sub s = true -> (String.length sub <= String.length s)%nat.
Proof.
  revert s. induction sub as [|c sub IH]; intros [|d s]; simpl; try done; try lia.
  destruct (Ascii.ascii_dec c d); [|done]. intros H. apply IH in H. lia.
Qed.

Lemma index_in_range (sub s : string) (m : nat) :
  String.index 0 sub s = Some m -> (m + String.length sub <= String.length s)%nat.
Proof.
  revert m. induction s as [|c s IH]; intros m; cbn [String.index].
  - destruct sub; [|done]. intros [= <-]. simpl. lia.
  - destruct (String.prefix sub (String c s)) eqn:Hp.
    + intros [= <-]. apply prefix_length in Hp. lia.
    + destruct (String.index 0 sub s) as [n|]; [|done].
      intros [= <-]. specialize (IH n eq_refl). simpl. lia.
Qed.

(** What a successful [find] returns: an offset inside [s] at which [sub]
    stands, and no smaller offset has it. *)
Lemma find_found (s sub : string) :
  find s sub <> -1 ->
  0 <= find s sub /\ find s sub + len sub <= len s /\
  slice s (find s sub) (find s sub + len sub) = sub /\
  (forall j, 0 <= j < find s sub -> slice s j (j + len sub) <> sub).
Proof.
  unfold find. destruct (String.index 0 sub s) as [m|] eqn:Hi; [intros _|done].
  pose proof (index_in_range _ _ _ Hi) as Hr.
  assert (Hsl : forall j : nat, (j + String.length sub <= String.length s)%nat ->
            slice s (Z.of_nat j) (Z.of_nat j + len sub) =
            String.substring j (String.length sub) s).
  { intros j Hj. unfold slice, slice_index, len.
    replace (Z.of_nat j <? 0) with false by lia.
    replace (Z.of_nat j + Z.of_nat (String.length sub) <? 0) with false by lia.
    f_equal; lia. }
  unfold len in *. split; [lia|]. split; [lia|]. split.
  - rewrite Hsl by done. by apply String.index_correct1 with (n := 0%nat).
  - intros j Hj. replace j with (Z.of_nat (Z.to_nat j)) by lia.
    rewrite Hsl by lia.
    apply (String.index_correct2 _ _ _ _ Hi); lia.
Qed.

(** ** The detector's loop *)

Lemma found_cons (t k : string) (ks : list string) :
  found t (k :: ks) =
  if decide (find t (lower k) <> -1) then lower k :: found t ks else found t ks.
Proof. unfold found. rewrite fmap_cons, filter_cons. by case_decide. Qed.

Lemma times_cons (k k' : string) (ks : list string) :
  times k (k' :: ks) = if decide (k' = k) then S (times k ks) else times k ks.
Proof. unfold times. rewrite filter_cons. by case_decide. Qed.

Lemma found_lower (t k : string) (ks : list string) :
  k ∈ found t ks -> find t k <> -1 /\ exists k0, k0 ∈ ks /\ k = lower k0.
Proof.
  unfold found. rewrite list_elem_of_filter, list_elem_of_fmap.
  intros [? (k0 & -> & ?)]. eauto.
Qed.

Lemma times_absent (k : string) (ks : list string) : k ∉ ks -> times k ks = 0%nat.
Proof.
  induction ks as [|k' ks IH]; [done|]. rewrite not_elem_of_cons, times_cons.
  intros [Hne Hnin]. case_decide; [congruence|auto].
Qed.

Lemma times_le_1 (k : string) (ks : list string) : NoDup ks -> (times k ks <= 1)%nat.
Proof.
  induction 1 as [|k' ks Hk' _ IH]; [unfold times; simpl; lia|].
  rewrite times_cons. case_decide as Hd; [|done]. subst k'.
  rewrite times_absent by done. lia.
Qed.

Lemma detect_body_not_found (t : string) (st : detection) (k : string) :
  find t (lower k) = -1 ->
  detect_body t st k =
  Ok (Detection (keyword_intervals st) (detected_keywords st)
        (keyword_positions st)
        (stdout st ++ ["Keyword '" +:+ lower k +:+ "' not found."])).
Proof. intros H. unfold detect_body. by rewrite H. Qed.

Lemma detect_body_found (t : string) (st : detection) (k : string) :
  find t (lower k) <> -1 ->
  detect_body t st k =
  match keyword_positions st !! lower k with
  | Some l =>
      Ok (Detection (keyword_intervals st ++ [occurrence_of t (lower k)])
            (detected_keywords st ++ [lower k])
            (<[lower k := l ++ [position_of t (lower k)]]> (keyword_positions st))
            (stdout st))
  | None => Raise (KeyError (lower k))
  end.
Proof.
  intros H. unfold detect_body.
  destruct (Z.eqb_spec (find t (lower k)) (-1)); [done|]. reflexivity.
Qed.

(** The loop, when it ends without an exception: the state it leaves. *)
Lemma detect_loop_ok (t : string) (ks : list string) (st st' : detection) :
  for_each (detect_body t) st ks = Ok st' ->
  keyword_intervals st' = keyword_intervals st ++ (occurrence_of t <$> found t ks) /\
  detected_keywords st' = detected_keywords st ++ found t ks /\
  (forall k, keyword_positions st' !! k =
     (fun l => l ++ replicate (times k (found t ks)) (position_of t k))
       <$> keyword_positions st !! k) /\
  Forall (fun k => is_Some (keyword_positions st !! k)) (found t ks).
Proof.
  revert st. induction ks as [|k ks IH]; intros st; simpl.
  - intros [= <-]. rewrite !app_nil_r. repeat split; [|done].
    intros k. destruct (keyword_positions st !! k); simpl; [|done].
    by rewrite app_nil_r.
  - rewrite found_cons. case_decide as Hf.
    + rewrite detect_body_found by done.
      destruct (keyword_positions st !! lower k) as [l|] eqn:Hl; [|done].
      simpl. intros H. apply IH in H as (Hi & Hd & Hp & Hs). simpl in *.
      rewrite Hi, Hd, <- !app_assoc. repeat split; [|].
      * intros k'. rewrite Hp, times_cons, lookup_insert.
        case_decide as Hk; [subst k'|done]. rewrite Hl. simpl.
        by rewrite <- app_assoc.
      * constructor; [by rewrite Hl|].
        eapply Forall_impl; [exact Hs|]. simpl. intros k'.
        rewrite lookup_insert. case_decide; [subst; by rewrite Hl|done].
    + rewrite detect_body_not_found by done.
      simpl. intros H. by apply IH in H.
Qed.

(** The loop raises exactly when a detected keyword is no key of the dict. *)
Lemma detect_loop_raises (t : string) (ks : list string) (st : detection) :
  ~ Forall (fun k => is_Some (keyword_positions st !! k)) (found t ks) ->
  exists k, for_each (detect_body t) st ks = Raise (KeyError k) /\
    k ∈ found t ks /\ keyword_positions st !! k = None.
Proof.
  revert st. induction ks as [|k ks IH]; intros st; simpl.
  - intros []. constructor.
  - rewrite found_cons. case_decide as Hf.
    + rewrite detect_body_found by done. intros Hn.
      destruct (keyword_positions st !! lower k) as [l|] eqn:Hl.
      * simpl. destruct (IH (Detection (keyword_intervals st ++ [occurrence_of t (lower k)])
            (detected_keywords st ++ [lower k])
            (<[lower k := l ++ [position_of t (lower k)]]> (keyword_positions st))
            (stdout st))) as (k' & Hr & Hin & Hnone).
        { intros HF. apply Hn. constructor; [by rewrite Hl|].
          eapply Forall_impl; [exact HF|]. simpl. intros k'.
          rewrite lookup_insert. case_decide; [subst; by rewrite Hl|done]. }
        exists k'. split; [done|]. split; [by right|].
        simpl in Hnone. rewrite lookup_insert in Hnone. by case_decide.
      * exists (lower k). split; [done|]. split; [by left|done].
    + rewrite detect_body_not_found by done.
      simpl. intros Hn.
      edestruct IH as (k' & Hr & Hin & Hnone); [|exists k'; eauto]. exact Hn.
Qed.

Lemma detect_loop_returns (t : string) (ks : list string) (st : detection) :
  Forall (fun k => is_Some (keyword_positions st !! k)) (found t ks) ->
  exists st', for_each (detect_body t) st ks = Ok st'.
Proof.
  revert st. induction ks as [|k ks IH]; intros st; simpl; [eauto|].
  rewrite found_cons. case_decide as Hf.
  - rewrite detect_body_found by done. intros HF.
    apply Forall_cons in HF as [[l Hl] HF]. rewrite Hl. simpl.
    apply IH. eapply Forall_impl; [exact HF|]. simpl. intros k'.
    rewrite lookup_insert. by case_decide.
  - rewrite detect_body_not_found by done. simpl. intros HF.
    apply IH. exact HF.
Qed.

(** ** The call as a whole *)

Lemma empty_positions_lookup (keywords : list string) (k : string) :
  empty_positions keywords !! k = if decide (k ∈ keywords) then Some [] else None.
Proof.
  unfold empty_positions.
  assert (forall d : gmap string (list (Z * Z)),
    foldl (fun d keyword => <[keyword := []]> d) d keywords !! k =
    if decide (k ∈ keywords) then Some [] else d !! k) as H.
  { induction keywords as [|k' ks IH]; intros d; simpl.
    - done.
    - rewrite IH. destruct (decide (k ∈ ks)) as [Hin|Hnin].
      + rewrite decide_True by (by right). done.
      + rewrite lookup_insert. destruct (decide (k' = k)) as [->|Hne].
        * rewrite decide_True by (by left). done.
        * rewrite decide_False; [done|]. rewrite elem_of_cons. by intros [->|?]. }
  rewrite H. by case_decide.
Qed.

(** Everything a returning call returns, in closed form. *)
Lemma detect_keywords_ok (transcription : option string) (keywords : list string)
    (d : detection) :
  detect_keywords transcription keywords = Ok d ->
  keyword_intervals d =
    occurrence_of (lowered transcription) <$> detections transcription keywords /\
  detected_keywords d = detections transcription keywords /\
  (forall k, keyword_positions d !! k =
     if decide (k ∈ keywords)
     then Some (replicate (times k (detections transcription keywords))
                  (position_of (lowered transcription) k))
     else None) /\
  Forall (fun k => k ∈ keywords) (detections transcription keywords).
Proof.
  unfold detect_keywords, lowered.
  destruct transcription as [[|c t]|]; simpl.
  - intros [= <-]. simpl. repeat split; [|done].
    intros k. rewrite empty_positions_lookup. by case_decide.
  - intros H. apply detect_loop_ok in H as (Hi & Hd & Hp & Hs). simpl in *.
    repeat split; [done|done| |].
    + intros k. rewrite Hp, empty_positions_lookup. by case_decide.
    + eapply Forall_impl; [exact Hs|]. simpl. intros k.
      rewrite empty_positions_lookup. case_decide; [done|]. by intros [? ?].
  - intros [= <-]. simpl. repeat split; [|done].
    intros k. rewrite empty_positions_lookup. by case_decide.
Qed.

(** When the call returns and when it raises. *)
Lemma detect_keywords_returns (transcription : option string) (keywords : list string) :
  Forall (fun k => k ∈ keywords) (detections transcription keywords) ->
  exists d, detect_keywords transcription keywords = Ok d.
Proof.
  unfold detect_keywords. destruct transcription as [[|c t]|]; simpl; eauto.
  intros HF. apply detect_loop_returns. simpl.
  eapply Forall_impl; [exact HF|]. simpl. intros k Hin.
  rewrite empty_positions_lookup, decide_True by done. eauto.
Qed.

Lemma detect_keywords_raises (transcription : option string) (keywords : list string)
    (k : string) :
  k ∈ detections transcription keywords -> k ∉ keywords ->
  exists k', detect_keywords transcription keywords = Raise (KeyError k') /\
    k' ∈ detections transcription keywords /\ k' ∉ keywords.
Proof.
  unfold detect_keywords. destruct transcription as [[|c t]|]; simpl;
    [by intros ?%not_elem_of_nil| |by intros ?%not_elem_of_nil].
  intros Hin Hnin.
  destruct (detect_loop_raises (lower (String c t)) keywords
              (Detection [] [] (empty_positions keywords) [])) as (k' & Hr & Hin' & Hn).
  - rewrite Forall_forall. intros HF. specialize (HF k Hin). simpl in HF.
    rewrite empty_positions_lookup, decide_False in HF by done. by destruct HF.
  - exists k'. split; [done|]. split; [done|]. simpl in Hn.
    rewrite empty_positions_lookup in Hn. by case_decide.
Qed.

Lemma detections_lower (transcription : option string) (keywords : list string)
    (k : string) :
  k ∈ detections transcription keywords ->
  find (lowered transcription) k <> -1 /\ lower k = k /\
  exists k0, k0 ∈ keywords /\ k = lower k0.
Proof.
  unfold detections, lowered. destruct transcription as [[|c t]|]; simpl;
    [by intros ?%not_elem_of_nil| |by intros ?%not_elem_of_nil].
  intros (Hf & k0 & Hin & ->)%found_lower. split; [done|].
  split; [apply lower_idem|eauto].
Qed.

Lemma detections_found (transcription : option string) (keywords : list string)
    (k : string) :
  truthy transcription = true -> k ∈ keywords ->
  find (lowered transcription) (lower k) <> -1 ->
  lower k ∈ detections transcription keywords.
Proof.
  unfold detections, lowered, found. destruct transcription as [[|c t]|]; try done.
  intros _ Hin Hf. apply list_elem_of_filter. split; [done|].
  apply list_elem_of_fmap. eauto.
Qed.

(** ** Counting true positives *)

Lemma length_remove_dups_le (l : list string) :
  (length (remove_dups l) <= length l)%nat.
Proof.
  induction l as [|x l IH]; simpl; [done|].
  destruct (decide_rel elem_of x l); simpl; lia.
Qed.

Lemma size_list_to_set_le (l : list string) :
  (size (list_to_set l : gset string) <= length l)%nat.
Proof.
  assert ((list_to_set l : gset string) = list_to_set (remove_dups l)) as ->.
  { apply set_eq. intros k. by rewrite !elem_of_list_to_set, elem_of_remove_dups. }
  rewrite size_list_to_set by apply NoDup_remove_dups. apply length_remove_dups_le.
Qed.

Lemma accuracy_tp_common (detected keywords : list string) :
  accuracy_tp detected keywords = Z.of_nat (length (common detected keywords)).
Proof.
  unfold accuracy_tp, common.
  rewrite <- (size_list_to_set (C := gset string)) by apply NoDup_remove_dups.
  do 2 f_equal. apply set_eq. intros k.
  rewrite elem_of_intersection, !elem_of_list_to_set, elem_of_remove_dups,
    list_elem_of_filter. tauto.
Qed.

Lemma accuracy_tp_bounds (detected keywords : list string) :
  0 <= accuracy_tp detected keywords /\
  accuracy_tp detected keywords <= Z.of_nat (length detected) /\
  accuracy_tp detected keywords <= Z.of_nat (length keywords).
Proof.
  unfold accuracy_tp. split; [lia|]. split.
  - pose proof (subseteq_size (C := gset string)
      (list_to_set detected ∩ list_to_set keywords) (list_to_set detected)
      (intersection_subseteq_l _ _)).
    pose proof (size_list_to_set_le detected). lia.
  - pose proof (subseteq_size (C := gset string)
      (list_to_set detected ∩ list_to_set keywords) (list_to_set keywords)
      (intersection_subseteq_r _ _)).
    pose proof (size_list_to_set_le keywords). lia.
Qed.



(** ** Occurrences recorded in a dict of positions *)

Lemma sum_without (g : string -> Z) (k : string) (l : list string) :
  NoDup l ->
  foldr Z.add 0 (g <$> filter (fun k' => k' <> k) l) =
  foldr Z.add 0 (g <$> l) - (if decide (k ∈ l) then g k else 0).
Proof.
  induction 1 as [|x l Hx _ IH]; [done|].
  rewrite filter_cons. destruct (decide (x <> k)) as [Hne|Heq].
  - rewrite !fmap_cons. simpl. rewrite IH.
    destruct (decide (k ∈ l)) as [Hin|Hnin].
    + rewrite decide_True by (by right). lia.
    + rewrite decide_False; [lia|]. rewrite elem_of_cons. by intros [->|?].
  - apply dec_stable in Heq. subst x. rewrite IH, fmap_cons. simpl.
    rewrite decide_False by done. rewrite decide_True by (by left). lia.
Qed.

Lemma sum_permutation (l1 l2 : list Z) :
  l1 ≡ₚ l2 -> foldr Z.add 0 l1 = foldr Z.add 0 l2.
Proof. induction 1; simpl; lia. Qed.

Lemma sum_ext (g1 g2 : string -> Z) (l : list string) :
  (forall k, k ∈ l -> g1 k = g2 k) ->
  foldr Z.add 0 (g1 <$> l) = foldr Z.add 0 (g2 <$> l).
Proof.
  induction l as [|x l IH]; intros Hg; [done|]. rewrite !fmap_cons. simpl.
  rewrite (Hg x) by (by left). rewrite IH; [done|]. intros k Hk. apply Hg. by right.
Qed.

Lemma keys_lookup {V : Type} (d : gmap string V) (k : string) :
  k ∈ keys d <-> is_Some (d !! k).
Proof.
  unfold keys. rewrite list_elem_of_fmap. split.
  - intros ([k' v] & -> & Hin). apply elem_of_map_to_list in Hin. eauto.
  - intros [v Hv]. exists (k, v). split; [done|]. by apply elem_of_map_to_list.
Qed.

Lemma keys_delete (kp : gmap string (list (Z * Z))) (k : string) :
  keys (delete k kp) ≡ₚ filter (fun k' => k' <> k) (keys kp).
Proof.
  apply NoDup_Permutation.
  - apply NoDup_fst_map_to_list.
  - apply NoDup_filter, NoDup_fst_map_to_list.
  - intros k'. rewrite list_elem_of_filter, !keys_lookup, lookup_delete.
    case_decide as Hk; [subst k'|].
    + split; [by intros [? ?]|by intros [? _]].
    + split; [intros ?; split; [congruence|done]|by intros [_ ?]].
Qed.

Lemma occurrences_absent (kp : gmap string (list (Z * Z))) (k : string) :
  kp !! k = None -> occurrences kp k = 0.
Proof. intros Hk. unfold occurrences. by rewrite Hk. Qed.

(** The false positives of a keyword are the occurrences of all the others. *)
Lemma occurrences_of_others_spec (kp : gmap string (list (Z * Z))) (k : string) :
  occurrences_of_others kp k = recorded kp - occurrences kp k.
Proof.
  unfold occurrences_of_others, recorded.
  rewrite sum_without by apply NoDup_fst_map_to_list.
  case_decide as Hin; [done|].
  rewrite occurrences_absent; [done|].
  destruct (kp !! k) eqn:Hk; [|done]. exfalso. apply Hin, keys_lookup. eauto.
Qed.

(** The occurrences of the keywords other than [k] are what the dict
    records once the key [k] is taken out. *)
Lemma occurrences_of_others_delete (kp : gmap string (list (Z * Z))) (k : string) :
  occurrences_of_others kp k = recorded (delete k kp).
Proof.
  unfold occurrences_of_others, recorded.
  rewrite (sum_permutation _ _ (fmap_Permutation _ _ _ (keys_delete kp k))).
  apply sum_ext. intros k' Hk'. apply list_elem_of_filter in Hk' as [Hne _].
  unfold occurrences. by rewrite lookup_delete_ne.
Qed.


(** ** The guarded divisions never raise *)

Section ScoringFacts.
Context {R : Type} `{Number R}.

Lemma ratio_of_ok (tp other : Z) :
  ratio_of tp other =
  Ok (if tp + other >? 0 then quotient (of_int tp) (of_int (tp + other))
      else of_int 0).
Proof.
  unfold ratio_of, int_truediv. destruct (Z.gtb_spec (tp + other) 0); [|done].
  destruct (Z.eqb_spec (tp + other) 0); [lia|done].
Qed.

Lemma f1_of_ok (p r : R) :
  f1_of p r =
  Ok (if positive (add p r)
      then quotient (mul (of_int 2) (mul p r)) (add p r) else of_int 0).
Proof.
  unfold f1_of, float_truediv. destruct (positive (add p r)) eqn:Hp; [|done].
  by rewrite (positive_not_zero _ Hp).
Qed.

Lemma compute_accuracy_ok (detected keywords : list string) :
  compute_accuracy detected keywords =
  let tp := accuracy_tp detected keywords in
  let p := guarded_ratio tp (tp + accuracy_fp detected keywords) in
  let r := guarded_ratio tp (tp + accuracy_fn detected keywords) in
  Ok (p, r, guarded_f1 p r).
Proof.
  unfold compute_accuracy. fold (accuracy_tp detected keywords).
  fold (accuracy_fp detected keywords). fold (accuracy_fn detected keywords).
  rewrite !ratio_of_ok. simpl. rewrite f1_of_ok. reflexivity.
Qed.

Lemma compute_accuracy_spec (detected keywords : list string) :
  compute_accuracy detected keywords =
  Ok (spec_precision detected keywords, spec_recall detected keywords,
      spec_f1 detected keywords).
Proof.
  rewrite compute_accuracy_ok. unfold spec_f1, spec_precision, spec_recall,
    spec_false_positives, spec_false_negatives, spec_true_positives,
    accuracy_fp, accuracy_fn.
  by rewrite !accuracy_tp_common.
Qed.

Lemma metrics_body_ok (kp : gmap string (list (Z * Z)))
    (m : gmap string (keyword_metric R)) (k : string) :
  metrics_body kp m k =
  let tp := occurrences kp k in
  let fp := occurrences_of_others kp k in
  let fn := if tp =? 0 then 1 else 0 in
  let p := guarded_ratio tp (tp + fp) in
  let r := guarded_ratio tp (tp + fn) in
  Ok (<[k := KeywordMetric p r (guarded_f1 p r) tp fp fn]> m).
Proof.
  unfold metrics_body. rewrite !ratio_of_ok. simpl. rewrite f1_of_ok. reflexivity.
Qed.

Lemma metrics_loop_ok (kp : gmap string (list (Z * Z))) (ks : list string)
    (m : gmap string (keyword_metric R)) :
  exists m', for_each (metrics_body kp) m ks = Ok m' /\
    forall k, m' !! k = if decide (k ∈ ks) then Some (metric_of kp k) else m !! k.
Proof.
  revert m. induction ks as [|k0 ks IH]; intros m; simpl.
  - exists m. split; [done|]. intros k. done.
  - rewrite metrics_body_ok. simpl. fold (metric_of kp k0).
    destruct (IH (<[k0 := metric_of kp k0]> m)) as (m' & Hm' & Hl).
    exists m'. split; [done|]. intros k. rewrite Hl.
    destruct (decide (k ∈ ks)) as [Hin|Hnin].
    + by rewrite decide_True by (by right).
    + rewrite lookup_insert. destruct (decide (k0 = k)) as [->|Hne].
      * by rewrite decide_True by (by left).
      * rewrite decide_False; [done|]. rewrite elem_of_cons. by intros [->|?].
Qed.

Lemma compute_individual_keyword_metrics_ok (kp : gmap string (list (Z * Z)))
    (ks : list string) :
  exists m, compute_individual_keyword_metrics kp ks = Ok m /\
    forall k, m !! k = if decide (k ∈ ks) then Some (metric_of kp k) else None.
Proof.
  destruct (metrics_loop_ok kp ks ∅) as (m & Hm & Hl). exists m. split; [done|].
  intros k. rewrite Hl. by case_decide.
Qed.

Lemma interval_in_time_ok (t : string) (D : R) (k : string) (s e : Z) :
  t <> "" ->
  interval_in_time t D (k, s, e) =
  Ok (k, mul (quotient (of_int s) (of_int (len t))) D,
         mul (quotient (of_int e) (of_int (len t))) D).
Proof.
  intros Ht. unfold interval_in_time, int_truediv.
  destruct (Z.eqb_spec (len t) 0) as [H0|_]; [|done].
  destruct t; [done|]. unfold len in H0. simpl in H0. lia.
Qed.

Lemma keyword_intervals_in_time_ok (t : string) (D : R)
    (intervals : list (string * Z * Z)) :
  len t <> 0 ->
  keyword_intervals_in_time t D intervals =
  Ok ((fun '(k, start, end_) =>
         (k, spec_time start (len t) D, spec_time end_ (len t) D)) <$> intervals).
Proof.
  intros Ht. assert (t <> "") as Hne by (by intros ->).
  induction intervals as [|[[k s] e] l IH]; [done|].
  cbn [keyword_intervals_in_time]. rewrite interval_in_time_ok by done.
  rewrite IH. reflexivity.
Qed.

End ScoringFacts.

(** ** The metrics in exact arithmetic *)

Lemma Q_positive_spec (x : Q) : Q_positive x = true <-> (0 < x)%Q.
Proof.
  unfold Q_positive. rewrite Qlt_alt. by destruct (0 ?= x)%Q.
Qed.


Lemma Q_guarded_ratio_zero (y : Z) : (guarded_ratio (R := Q) 0 y == 0)%Q.
Proof.
  unfold guarded_ratio. simpl. destruct (y >? 0); [|reflexivity].
  unfold Qdiv. apply Qmult_0_l.
Qed.


Lemma Q_guarded_f1_zero (p r : Q) : (p == 0)%Q -> (guarded_f1 p r == 0)%Q.
Proof.
  intros Hp. unfold guarded_f1. simpl.
  destruct (Q_positive (p + r)); [|reflexivity].
  unfold Qdiv. rewrite Hp. change (inject_Z 2) with 2%Q.
  transitivity (0 * / (0 + r))%Q; [|apply Qmult_0_l].
  apply Qmult_comp; [ring|reflexivity].
Qed.

(** ** The metrics in binary64, for lists of up to [checked_length] entries *)









(** The length of a list of the mapping: one entry for each detection of
    its key. *)
Lemma keyword_positions_length (transcription : option string)
    (keywords : list string) (d : detection) (k : string) (l : list (Z * Z)) :
  detect_keywords transcription keywords = Ok d ->
  keyword_positions d !! k = Some l ->
  l = replicate (times k (detections transcription keywords))
        (position_of (lowered transcription) k).
Proof.
  intros Hd Hl. apply detect_keywords_ok in Hd as (_ & _ & Hp & _).
  rewrite Hp in Hl. case_decide; [|done]. by injection Hl as <-.
Qed.

Lemma detections_NoDup (transcription : option string) (keywords : list string) :
  NoDup (lower <$> keywords) -> NoDup (detections transcription keywords).
Proof.
  intros Hnd. unfold detections.
  destruct transcription as [[|c t]|]; try apply NoDup_nil_2.
  unfold found. by apply NoDup_filter.
Qed.

Lemma times_positive (k : string) (ks : list string) :
  (0 < times k ks)%nat -> k ∈ ks.
Proof.
  unfold times. intros Hn.
  destruct (filter (fun k' => k' = k) ks) as [|k' ?] eqn:Hfl; [simpl in Hn; lia|].
  assert (k' ∈ filter (fun k' => k' = k) ks) as Hin by (rewrite Hfl; left).
  by apply list_elem_of_filter in Hin as [-> ?].
Qed.

(** * Part IV: the claims *)

(** ** Scenario runs *)

Example detect_scenario1 :
  detect_keywords (Some "the quick brown fox") ["quick"; "cat"] =
  Ok (Detection [("quick", 4, 9)] ["quick"]
        (<["quick" := [(4, 9)]]> (<["cat" := []]> ∅))
        ["Keyword 'cat' not found."]).
Proof. vm_compute. reflexivity. Qed.

(** Ten seconds of audio at the sample rate [preprocess_audio] sets. *)
Example audio_duration_scenario :
  audio_duration_of (R := float) 160000 16000 = Ok 10%float.
Proof. vm_compute. reflexivity. Qed.

(** ** Detection *)

(** C1 (defect of the code).  On the transcript "a quick fox" and the keyword
    list ["Quick"] the call does not return: the occurrence is found, and
    then line 57 subscripts the dict with the lower-cased keyword "quick",
    which is no key of it, and raises [KeyError].  The same call with the
    keyword spelled "quick" returns the occurrence at offsets (2, 7).  In
    general the call raises whenever a keyword occurs in the transcript and
    its lower-cased form is not itself an entry of the keyword list. *)
Theorem detect_keywords_capital_keyword_raises :
  detect_keywords (Some "a quick fox") ["Quick"] = Raise (KeyError "quick") /\
  (exists d, detect_keywords (Some "a quick fox") ["quick"] = Ok d /\
     keyword_intervals d = [("quick", 2, 7)] /\
     detected_keywords d = ["quick"]) /\
  (forall (transcription : option string) (keywords : list string) (k : string),
     truthy transcription = true -> k ∈ keywords -> lower k ∉ keywords ->
     find (lowered transcription) (lower k) <> -1 ->
     exists k', detect_keywords transcription keywords = Raise (KeyError k')).
Proof.
  split; [by vm_compute|]. split.
  - eexists. split; [by vm_compute|]. by split.
  - intros transcription keywords k Ht Hin Hnin Hf.
    destruct (detect_keywords_raises transcription keywords (lower k))
      as (k' & Hr & _); [|done|eauto].
    by apply detections_found.
Qed.

(** The general case of C1 at the scenario. *)
Lemma detect_keywords_capital_keyword_raises_witness :
  truthy (Some "a quick fox") = true /\ "Quick" ∈ ["Quick"] /\
  (lower "Quick" ∉ ["Quick"]) /\
  find (lowered (Some "a quick fox")) (lower "Quick") <> -1 /\
  exists k', detect_keywords (Some "a quick fox") ["Quick"] = Raise (KeyError k').
Proof.
  assert (truthy (Some "a quick fox") = true) as Ht by reflexivity.
  assert ("Quick" ∈ ["Quick"]) as Hin by left.
  assert (lower "Quick" ∉ ["Quick"]) as Hnin.
  { intros Hk. apply list_elem_of_singleton in Hk. discriminate Hk. }
  assert (find (lowered (Some "a quick fox")) (lower "Quick") <> -1) as Hf
    by (vm_compute; discriminate).
  split; [exact Ht|]. split; [exact Hin|]. split; [exact Hnin|]. split; [exact Hf|].
  exact (proj2 (proj2 detect_keywords_capital_keyword_raises)
           (Some "a quick fox") ["Quick"] "Quick" Ht Hin Hnin Hf).
Defined.






(** C4, as stated, fails when the keyword list repeats a keyword: each
    entry of the list appends the same first match once more. *)
Lemma repeated_keyword_two_positions :
  exists d l, detect_keywords (Some "a") ["a"; "a"] = Ok d /\
    keyword_positions d !! "a" = Some l /\ ~ (length l <= 1)%nat.
Proof.
  eexists _, [(0, 1); (0, 1)]. split; [by vm_compute|]. split; [by vm_compute|].
  simpl. lia.
Qed.

(** C4 (amended).  When a call returns and no two entries of the keyword
    list have the same lower-cased form, every list of the returned mapping
    has length 0 or 1.  In any returning call, every entry of such a list
    is the earliest occurrence of its key in the lower-cased transcript (no
    smaller offset has the key), so that further appearances of a keyword
    in the transcript add nothing. *)
Theorem keyword_positions_first_match_only (transcription : option string)
    (keywords : list string) (d : detection) (k : string) (l : list (Z * Z)) :
  detect_keywords transcription keywords = Ok d ->
  keyword_positions d !! k = Some l ->
  (NoDup (lower <$> keywords) -> (length l <= 1)%nat) /\
  (forall start end_, (start, end_) ∈ l ->
     start = find (lowered transcription) k /\ end_ = start + len k /\
     slice (lowered transcription) start end_ = k /\
     forall j, 0 <= j < start -> slice (lowered transcription) j (j + len k) <> k).
Proof.
  intros Hd Hl. rewrite (keyword_positions_length _ _ _ _ _ Hd Hl). split.
  - intros Hnd. rewrite length_replicate.
    by apply times_le_1, detections_NoDup.
  - intros start end_ Hin. apply elem_of_replicate in Hin as [Heq Hn].
    unfold position_of in Heq. injection Heq as -> ->.
    assert (k ∈ detections transcription keywords) as Hk
      by (apply times_positive; lia).
    apply detections_lower in Hk as (Hf & _ & _).
    by destruct (find_found _ _ Hf) as (_ & _ & Hs & Hmin).
Qed.

(** C4 at work: "cat" stands twice in the transcript and is recorded once,
    at its first place. *)
Lemma keyword_positions_first_match_only_witness :
  detect_keywords (Some "a cat, a dog, a cat") ["cat"; "dog"] =
    Ok (Detection [("cat", 2, 5); ("dog", 9, 12)] ["cat"; "dog"]
          (<["cat" := [(2, 5)]]> (<["dog" := [(9, 12)]]> ∅)) []) /\
  (<["cat" := [(2, 5)]]> (<["dog" := [(9, 12)]]> ∅)
     : gmap string (list (Z * Z))) !! "cat" = Some [(2, 5)] /\
  (NoDup (lower <$> ["cat"; "dog"]) -> (length [(2, 5)] <= 1)%nat) /\
  (forall start end_, (start, end_) ∈ [(2, 5)] ->
     start = find (lowered (Some "a cat, a dog, a cat")) "cat" /\
     end_ = start + len "cat" /\
     slice (lowered (Some "a cat, a dog, a cat")) start end_ = "cat" /\
     forall j, 0 <= j < start ->
       slice (lowered (Some "a cat, a dog, a cat")) j (j + len "cat") <> "cat").
Proof.
  assert (detect_keywords (Some "a cat, a dog, a cat") ["cat"; "dog"] =
    Ok (Detection [("cat", 2, 5); ("dog", 9, 12)] ["cat"; "dog"]
          (<["cat" := [(2, 5)]]> (<["dog" := [(9, 12)]]> ∅)) []))
    as Hrun by (vm_compute; reflexivity).
  assert ((<["cat" := [(2, 5)]]> (<["dog" := [(9, 12)]]> ∅)
     : gmap string (list (Z * Z))) !! "cat" = Some [(2, 5)]) as Hl
    by (vm_compute; reflexivity).
  split; [exact Hrun|]. split; [exact Hl|].
  exact (keyword_positions_first_match_only _ _ _ "cat" [(2, 5)] Hrun Hl).
Defined.

(** ** Per-keyword metrics *)

(** C5.  For a keyword [k] of the list and any mapping,
    [compute_individual_keyword_metrics] returns and stores for [k]:
    true_positives, the number of occurrences recorded for [k];
    false_positives, the occurrences recorded for all the other keys (what
    the mapping records without the key [k], that is all it records minus
    those of [k]); false_negatives, 1 if [k] has no occurrence and 0
    otherwise.  With K = ["a"; "b"] and a transcript that has "a" once and
    no "b", false_positives of "b" is 1. *)
Theorem per_keyword_counts :
  (forall (R : Type) (N : Number R) (kp : gmap string (list (Z * Z)))
          (keywords : list string) (k : string),
     k ∈ keywords ->
     exists m x, compute_individual_keyword_metrics kp keywords = Ok m /\
       m !! k = Some x /\
       true_positives x = Z.of_nat (length (default [] (kp !! k))) /\
       false_positives x = recorded (delete k kp) /\
       false_positives x = recorded kp - true_positives x /\
       false_negatives x = (if decide (true_positives x = 0) then 1 else 0)) /\
  (exists d m x, detect_keywords (Some "a") ["a"; "b"] = Ok d /\
     keyword_positions d !! "a" = Some [(0, 1)] /\
     keyword_positions d !! "b" = Some [] /\
     compute_individual_keyword_metrics (R := float) (keyword_positions d)
       ["a"; "b"] = Ok m /\
     m !! "b" = Some x /\ false_positives x = 1).
Proof.
  split.
  - intros R N kp keywords k Hin.
    destruct (compute_individual_keyword_metrics_ok kp keywords) as (m & Hm & Hl).
    exists m, (metric_of kp k). split; [done|]. split.
    { rewrite Hl. by rewrite decide_True. }
    simpl. split; [done|]. split; [apply occurrences_of_others_delete|].
    split; [apply occurrences_of_others_spec|].
    destruct (Z.eqb_spec (occurrences kp k) 0); by case_decide.
  - destruct (compute_individual_keyword_metrics_ok (R := float)
      (<["a" := [(0, 1)]]> (<["b" := []]> ∅)) ["a"; "b"]) as (m & Hm & Hl).
    eexists _, m, _. split; [by vm_compute|]. simpl.
    split; [by vm_compute|]. split; [by vm_compute|]. split; [exact Hm|].
    split; [rewrite Hl; reflexivity|]. by vm_compute.
Qed.

(** The scenario of C5 as an instance of its general part. *)
Lemma per_keyword_counts_witness :
  "b" ∈ ["a"; "b"] /\
  exists m x,
    compute_individual_keyword_metrics (R := Q)
      (<["a" := [(0, 1)]]> (<["b" := []]> ∅)) ["a"; "b"] = Ok m /\
    m !! "b" = Some x /\
    true_positives x =
      Z.of_nat (length (default []
        ((<["a" := [(0, 1)]]> (<["b" := []]> ∅) : gmap string (list (Z * Z))) !! "b"))) /\
    false_positives x = recorded (delete "b" (<["a" := [(0, 1)]]> (<["b" := []]> ∅))) /\
    false_positives x =
      recorded (<["a" := [(0, 1)]]> (<["b" := []]> ∅)) - true_positives x /\
    false_negatives x = (if decide (true_positives x = 0) then 1 else 0).
Proof.
  assert ("b" ∈ ["a"; "b"]) as Hin by (right; left).
  split; [exact Hin|].
  exact (proj1 per_keyword_counts Q Q_number
           (<["a" := [(0, 1)]]> (<["b" := []]> ∅)) ["a"; "b"] "b" Hin).
Defined.

(** ** Aggregate metrics *)

(** C6.  For every detected-keyword list and keyword list, on either
    carrier, [compute_accuracy] returns precision = TP / (TP + FP),
    recall = TP / (TP + FN) and F1 = 2 P R / (P + R) (each 0 when its
    denominator is not positive), where TP is the number of distinct
    keywords in both lists, FP = |detected| - TP and FN = |keywords| - TP.
    On the transcript "the quick brown fox" with K = ["quick"; "cat"] the
    detected list is ["quick"] and the metrics are 1, 1/2 and 2/3: exactly
    so in rational arithmetic, and in binary64 the numbers 1.0, 0.5 and
    the quotient 2/3. *)
Theorem compute_accuracy_formulas :
  (forall (R : Type) (N : Number R) (detected keywords : list string),
     compute_accuracy detected keywords =
     Ok (spec_precision detected keywords, spec_recall detected keywords,
         spec_f1 detected keywords)) /\
  (exists d, detect_keywords (Some "the quick brown fox") ["quick"; "cat"] = Ok d /\
     detected_keywords d = ["quick"] /\
     spec_true_positives (detected_keywords d) ["quick"; "cat"] = 1 /\
     spec_false_positives (detected_keywords d) ["quick"; "cat"] = 0 /\
     spec_false_negatives (detected_keywords d) ["quick"; "cat"] = 1 /\
     compute_accuracy (R := float) (detected_keywords d) ["quick"; "cat"] =
       Ok (1%float, 0.5%float, (2 / 3)%float) /\
     exists p r f,
       compute_accuracy (R := Q) (detected_keywords d) ["quick"; "cat"] = Ok (p, r, f) /\
       (p == 1)%Q /\ (r == 1 # 2)%Q /\ (f == 2 # 3)%Q).
Proof.
  split; [intros R N; apply compute_accuracy_spec|].
  eexists. split; [by vm_compute|]. simpl.
  split; [done|]. split; [by vm_compute|]. split; [by vm_compute|].
  split; [by vm_compute|]. split; [by vm_compute|].
  eexists _, _, _. split; [by vm_compute|]. by repeat split.
Qed.



(** ** Time mapping *)

(** C8.  For a transcript of non-zero length L and an audio duration D, the
    time mapper never raises and turns every occurrence (keyword, start,
    end) into (keyword, start / L * D, end / L * D), on either carrier.  In
    exact arithmetic this is start * D / L: 0 at offset 0 and D at offset L.
    For L = 20, D = 10 and offsets (4, 9) the interval is (2.0, 4.5),
    exactly so in binary64 too. *)
Theorem time_mapper_linear_interpolation :
  (forall (R : Type) (N : Number R) (transcription : string) (audio_duration : R)
          (intervals : list (string * Z * Z)),
     len transcription <> 0 ->
     keyword_intervals_in_time transcription audio_duration intervals =
     Ok ((fun '(k, start, end_) =>
            (k, spec_time start (len transcription) audio_duration,
                spec_time end_ (len transcription) audio_duration)) <$> intervals)) /\
  (forall (offset L : Z) (D : Q),
     L <> 0 ->
     (spec_time offset L D == inject_Z offset * D / inject_Z L)%Q /\
     (spec_time 0 L D == 0)%Q /\ (spec_time L L D == D)%Q) /\
  (forall transcription k : string,
     len transcription = 20 ->
     keyword_intervals_in_time (R := float) transcription 10%float [(k, 4, 9)] =
       Ok [(k, 2%float, 4.5%float)]) /\
  (forall transcription k : string,
     len transcription = 20 ->
     exists a b,
       keyword_intervals_in_time (R := Q) transcription 10%Q [(k, 4, 9)] =
         Ok [(k, a, b)] /\ (a == 2)%Q /\ (b == 9 # 2)%Q).
Proof.
  split; [intros R N; apply keyword_intervals_in_time_ok|]. split; [|split].
  - intros offset L D HL. unfold spec_time. simpl.
    assert (~ (inject_Z L == 0)%Q) as HL'.
    { change 0%Q with (inject_Z 0). rewrite inject_Z_injective. done. }
    split; [field; exact HL'|]. split; [|field; exact HL'].
    unfold Qdiv. rewrite !Qmult_0_l. reflexivity.
  - intros transcription k HL. rewrite keyword_intervals_in_time_ok by lia.
    rewrite HL. by vm_compute.
  - intros transcription k HL. rewrite keyword_intervals_in_time_ok by lia.
    rewrite HL. eexists _, _. split; [reflexivity|]. by split.
Qed.

(** The scenario of C8 as an instance of its general part. *)
Lemma time_mapper_linear_interpolation_witness :
  len "the quick brown fox!" <> 0 /\
  keyword_intervals_in_time (R := float) "the quick brown fox!" 10%float
    [("quick", 4, 9)] = Ok [("quick", 2%float, 4.5%float)].
Proof.
  assert (len "the quick brown fox!" <> 0) as HL by (vm_compute; discriminate).
  split; [exact HL|].
  rewrite (proj1 time_mapper_linear_interpolation float float_number
             "the quick brown fox!" 10%float [("quick", 4, 9)] HL).
  vm_compute. reflexivity.
Defined.

(** ** Per-keyword recall and the casing of the outputs *)

(** C9.  When every key of the mapping has at most one recorded occurrence,
    the recall stored for a keyword of the list is exactly 1 if the keyword
    has an occurrence and exactly 0 if it has none, in exact arithmetic and
    in binary64 alike: false_negatives is 0 as soon as true_positives is
    positive, and 1 otherwise. *)
Theorem per_keyword_recall_zero_or_one (kp : gmap string (list (Z * Z)))
    (keywords : list string) (k : string) :
  (forall k' l, kp !! k' = Some l -> (length l <= 1)%nat) ->
  k ∈ keywords ->
  (exists m x, compute_individual_keyword_metrics (R := Q) kp keywords = Ok m /\
     m !! k = Some x /\
     recall x = (if decide (0 < true_positives x) then 1%Q else 0%Q) /\
     false_negatives x = (if decide (0 < true_positives x) then 0 else 1) /\
     true_positives x = Z.of_nat (length (default [] (kp !! k)))) /\
  (exists m x, compute_individual_keyword_metrics (R := float) kp keywords = Ok m /\
     m !! k = Some x /\
     recall x = (if decide (0 < true_positives x) then 1%float else 0%float) /\
     false_negatives x = (if decide (0 < true_positives x) then 0 else 1) /\
     true_positives x = Z.of_nat (length (default [] (kp !! k)))).
Proof.
  intros Hone Hin.
  assert (occurrences kp k = 0 \/ occurrences kp k = 1) as Htp.
  { unfold occurrences. destruct (kp !! k) as [l|] eqn:Hk; simpl; [|by left].
    specialize (Hone k l Hk). destruct l as [|? [|? ?]]; simpl in *; [by left|by right|lia]. }
  split.
  - destruct (compute_individual_keyword_metrics_ok (R := Q) kp keywords)
      as (m & Hm & Hl).
    exists m, (metric_of kp k). split; [done|]. split.
    { rewrite Hl. by rewrite decide_True. }
    simpl. split; [|split; [|done]]; destruct Htp as [-> | ->]; by vm_compute.
  - destruct (compute_individual_keyword_metrics_ok (R := float) kp keywords)
      as (m & Hm & Hl).
    exists m, (metric_of kp k). split; [done|]. split.
    { rewrite Hl. by rewrite decide_True. }
    simpl. split; [|split; [|done]]; destruct Htp as [-> | ->]; by vm_compute.
Qed.

(** C9 at work: one keyword detected once, one not detected. *)
Lemma per_keyword_recall_zero_or_one_witness :
  (forall k' l,
     (<["a" := [(0, 1)]]> (<["b" := []]> ∅) : gmap string (list (Z * Z))) !! k' = Some l ->
     (length l <= 1)%nat) /\
  "a" ∈ ["a"; "b"] /\
  (exists m x,
     compute_individual_keyword_metrics (R := float)
       (<["a" := [(0, 1)]]> (<["b" := []]> ∅)) ["a"; "b"] = Ok m /\
     m !! "a" = Some x /\ recall x = 1%float /\ false_negatives x = 0).
Proof.
  assert (forall k' l,
     (<["a" := [(0, 1)]]> (<["b" := []]> ∅) : gmap string (list (Z * Z))) !! k' = Some l ->
     (length l <= 1)%nat) as Hone.
  { intros k' l. rewrite lookup_insert. case_decide; [intros [= <-]; simpl; lia|].
    rewrite lookup_insert. case_decide; [intros [= <-]; simpl; lia|].
    by rewrite lookup_empty. }
  assert ("a" ∈ ["a"; "b"]) as Hin by left.
  split; [exact Hone|]. split; [exact Hin|].
  destruct (per_keyword_recall_zero_or_one _ ["a"; "b"] "a" Hone Hin)
    as [_ (m & x & Hm & Hx & Hr & Hfn & Htp)].
  exists m, x. rewrite Htp in Hr, Hfn. by repeat split.
Defined.

(** C10.  When a call returns, every detected keyword and the keyword of
    every occurrence is the lower-cased form of an input keyword, and is
    itself in lower case, so a keyword spelled with a capital never shows up
    in these two outputs; the keys of the mapping are the input keywords in
    the caller's spelling. *)
Theorem detected_keywords_lower_cased (transcription : option string)
    (keywords : list string) (d : detection) :
  detect_keywords transcription keywords = Ok d ->
  (forall k, k ∈ detected_keywords d ->
     lower k = k /\ exists k0, k0 ∈ keywords /\ k = lower k0) /\
  (forall k start end_, (k, start, end_) ∈ keyword_intervals d ->
     lower k = k /\ exists k0, k0 ∈ keywords /\ k = lower k0) /\
  (forall k0, lower k0 <> k0 ->
     (k0 ∉ detected_keywords d) /\
     forall start end_, (k0, start, end_) ∉ keyword_intervals d) /\
  dom (keyword_positions d) = list_to_set keywords.
Proof.
  intros Hd. apply detect_keywords_ok in Hd as (Hi & Hdet & Hp & _).
  assert (forall k, k ∈ detected_keywords d ->
            lower k = k /\ exists k0, k0 ∈ keywords /\ k = lower k0) as H1.
  { intros k Hk. rewrite Hdet in Hk.
    by apply detections_lower in Hk as (_ & ? & ?). }
  assert (forall k start end_, (k, start, end_) ∈ keyword_intervals d ->
            k ∈ detected_keywords d) as H2.
  { intros k start end_ Hk. rewrite Hi in Hk.
    apply list_elem_of_fmap in Hk as (k' & Heq & Hk').
    unfold occurrence_of in Heq. injection Heq as -> _ _. by rewrite Hdet. }
  split; [exact H1|]. split.
  { intros k start end_ Hk. apply H1. by apply (H2 k start end_). }
  split.
  - intros k0 Hne. split.
    + intros Hk0. apply H1 in Hk0. by destruct Hk0.
    + intros start end_ Hk0. apply H2, H1 in Hk0. by destruct Hk0.
  - apply set_eq. intros k. rewrite elem_of_dom, Hp, elem_of_list_to_set.
    case_decide; [|split; [by intros [? ?]|done]]. split; eauto.
Qed.

(** C10 at work: the capital of "Quick" survives only as a key. *)
Lemma detected_keywords_lower_cased_witness :
  detect_keywords (Some "a quick fox") ["quick"; "Quick"] =
    Ok (Detection [("quick", 2, 7); ("quick", 2, 7)] ["quick"; "quick"]
          (<["quick" := [(2, 7); (2, 7)]]> (<["Quick" := []]> ∅)) []) /\
  (forall k, k ∈ ["quick"; "quick"] ->
     lower k = k /\ exists k0, k0 ∈ ["quick"; "Quick"] /\ k = lower k0) /\
  (forall k start end_, (k, start, end_) ∈ [("quick", 2, 7); ("quick", 2, 7)] ->
     lower k = k /\ exists k0, k0 ∈ ["quick"; "Quick"] /\ k = lower k0) /\
  (forall k0, lower k0 <> k0 ->
     (k0 ∉ ["quick"; "quick"]) /\
     forall start end_, (k0, start, end_) ∉ [("quick", 2, 7); ("quick", 2, 7)]) /\
  dom (<["quick" := [(2, 7); (2, 7)]]> (<["Quick" := []]> ∅)
         : gmap string (list (Z * Z))) = list_to_set ["quick"; "Quick"].
Proof.
  assert (detect_keywords (Some "a quick fox") ["quick"; "Quick"] =
    Ok (Detection [("quick", 2, 7); ("quick", 2, 7)] ["quick"; "quick"]
          (<["quick" := [(2, 7); (2, 7)]]> (<["Quick" := []]> ∅)) []))
    as Hrun by (vm_compute; reflexivity).
  split; [exact Hrun|].
  exact (detected_keywords_lower_cased _ _ _ Hrun).
Defined.

(** ** Further properties of the detector *)

(** A call returns exactly when every keyword that occurs in the transcript
    has its lower-cased form among the entries of the keyword list;
    otherwise it raises [KeyError] on a lower-cased keyword that is none. *)
Theorem detect_keywords_returns_iff :
  forall (transcription : option string) (keywords : list string),
    ((exists d, detect_keywords transcription keywords = Ok d) <->
     Forall (fun k => k ∈ keywords) (detections transcription keywords)) /\
    ((exists k, detect_keywords transcription keywords = Raise (KeyError k) /\
                k ∈ detections transcription keywords /\ k ∉ keywords) <->
     ~ Forall (fun k => k ∈ keywords) (detections transcription keywords)).
Proof.
  intros transcription keywords. split; split.
  - intros [d Hd]. by apply detect_keywords_ok in Hd as (_ & _ & _ & ?).
  - apply detect_keywords_returns.
  - intros (k & _ & Hin & Hnin) HF. rewrite Forall_forall in HF. by apply Hnin, HF.
  - intros Hn. apply not_Forall_Exists in Hn; [|intros k; apply _].
    apply Exists_exists in Hn as (k & Hin & Hnin).
    by apply (detect_keywords_raises _ _ k).
Qed.

(** A keyword list written in lower case never makes the call raise, and
    the call then detects exactly the keywords that occur in the lower-cased
    transcript, each keyword-list entry once, in the order of the list. *)
Theorem detect_keywords_lower_case_list (transcription : option string)
    (keywords : list string) :
  Forall (fun k => lower k = k) keywords ->
  exists d, detect_keywords transcription keywords = Ok d /\
    detected_keywords d =
      (if truthy transcription
       then filter (fun k => find (lowered transcription) k <> -1) keywords
       else []) /\
    keyword_intervals d = occurrence_of (lowered transcription) <$> detected_keywords d.
Proof.
  intros Hlow.
  assert (lower <$> keywords = keywords) as Hmap.
  { induction Hlow as [|k ks Hk _ IH]; [done|]. by rewrite fmap_cons, Hk, IH. }
  destruct (detect_keywords_returns transcription keywords) as [d Hd].
  - apply Forall_forall. intros k Hk.
    apply detections_lower in Hk as (_ & _ & k0 & Hk0 & ->).
    rewrite Forall_forall in Hlow. by rewrite (Hlow k0 Hk0).
  - exists d. split; [done|].
    apply detect_keywords_ok in Hd as (Hi & Hdet & _ & _).
    rewrite Hi, Hdet. split; [|done].
    unfold detections, lowered, found.
    destruct transcription as [[|c t]|]; simpl; try done. by rewrite Hmap.
Qed.

(** A lower-case keyword list at work. *)
Lemma detect_keywords_lower_case_list_witness :
  Forall (fun k => lower k = k) ["fox"; "cat"; "the"] /\
  exists d, detect_keywords (Some "The quick brown Fox") ["fox"; "cat"; "the"] = Ok d /\
    detected_keywords d = ["fox"; "the"] /\
    keyword_intervals d = [("fox", 16, 19); ("the", 0, 3)].
Proof.
  assert (Forall (fun k => lower k = k) ["fox"; "cat"; "the"]) as Hlow
    by (repeat constructor).
  split; [exact Hlow|].
  destruct (detect_keywords_lower_case_list (Some "The quick brown Fox")
              ["fox"; "cat"; "the"] Hlow) as (d & Hd & Hdet & Hi).
  exists d. split; [exact Hd|]. rewrite Hi, Hdet. split; reflexivity.
Defined.

(** The aggregate true positives never exceed either list: the counts of
    false positives and false negatives are not negative. *)
Theorem true_positives_bounded :
  forall detected keywords : list string,
    0 <= spec_true_positives detected keywords /\
    spec_true_positives detected keywords <= Z.of_nat (length detected) /\
    spec_true_positives detected keywords <= Z.of_nat (length keywords) /\
    0 <= spec_false_positives detected keywords /\
    0 <= spec_false_negatives detected keywords /\
    accuracy_tp detected keywords = spec_true_positives detected keywords.
Proof.
  intros detected keywords.
  pose proof (accuracy_tp_bounds detected keywords) as (H0 & Hd & Hk).
  pose proof (accuracy_tp_common detected keywords) as Hc.
  unfold spec_false_positives, spec_false_negatives, spec_true_positives in *.
  lia.
Qed.

(** * Part V: further lemmas *)

(** ** More about the detector's loop *)

Lemma not_found_lines_cons (t k : string) (ks : list string) :
  not_found_lines t (k :: ks) =
  if decide (find t (lower k) = -1)
  then not_found_line (lower k) :: not_found_lines t ks
  else not_found_lines t ks.
Proof.
  unfold not_found_lines. rewrite fmap_cons, filter_cons. by case_decide.
Qed.

Lemma detect_loop_stdout (t : string) (ks : list string) (st st' : detection) :
  for_each (detect_body t) st ks = Ok st' ->
  stdout st' = stdout st ++ not_found_lines t ks.
Proof.
  revert st. induction ks as [|k ks IH]; intros st; simpl.
  - intros [= <-]. by rewrite app_nil_r.
  - rewrite not_found_lines_cons. case_decide as Hf.
    + rewrite detect_body_not_found by done. simpl. intros H.
      apply IH in H. simpl in H. by rewrite H, <- app_assoc.
    + rewrite detect_body_found by done.
      destruct (keyword_positions st !! lower k); [|done]. simpl.
      intros H. by apply IH in H.
Qed.

Lemma length_found_not_found (t : string) (ks : list string) :
  (length (found t ks) + length (not_found_lines t ks) = length ks)%nat.
Proof.
  induction ks as [|k ks IH]; [done|].
  rewrite found_cons, not_found_lines_cons.
  destruct (decide (find t (lower k) = -1)) as [Hf|Hf].
  - rewrite decide_False by (intros Hn; by apply Hn). simpl. lia.
  - rewrite decide_True by done. simpl. lia.
Qed.


(** Adding up, over a duplicate-free list of keys that has every element
    of [l], how often each key stands in [l] gives the length of [l]. *)
Lemma sum_times (keys_ l : list string) :
  NoDup keys_ -> Forall (fun x => x ∈ keys_) l ->
  foldr Z.add 0 ((fun k => Z.of_nat (times k l)) <$> keys_) = Z.of_nat (length l).
Proof.
  intros Hnd. induction 1 as [|x l Hx _ IH].
  - induction keys_ as [|k ks IHk]; [done|]. rewrite fmap_cons. simpl.
    rewrite IHk by (by apply NoDup_cons in Hnd as [_ ?]). done.
  - assert (forall ks, NoDup ks ->
      foldr Z.add 0 ((fun k => Z.of_nat (times k (x :: l))) <$> ks) =
      foldr Z.add 0 ((fun k => Z.of_nat (times k l)) <$> ks) +
      (if decide (x ∈ ks) then 1 else 0)) as Hstep.
    { clear. induction 1 as [|k ks Hk _ IHk]; [done|].
      rewrite !fmap_cons. cbn [foldr]. rewrite IHk, times_cons.
      destruct (decide (x = k)) as [->|Hne].
      - rewrite decide_False by done. rewrite decide_True by (by left). lia.
      - destruct (decide (x ∈ ks)) as [Hin|Hnin].
        + rewrite decide_True by (by right). lia.
        + rewrite decide_False; [lia|]. rewrite elem_of_cons. by intros [?|?]. }
    rewrite Hstep by done. rewrite IH, decide_True by done. simpl length. lia.
Qed.

Lemma detect_keywords_stdout (transcription : option string)
    (keywords : list string) (d : detection) :
  detect_keywords transcription keywords = Ok d ->
  stdout d =
  if truthy transcription
  then not_found_lines (lowered transcription) keywords else [].
Proof.
  unfold detect_keywords, lowered.
  destruct transcription as [[|c t]|]; simpl; try by intros [= <-].
  intros H. by apply detect_loop_stdout in H.
Qed.

Lemma detections_fmap_lower (transcription1 transcription2 : option string)
    (keywords1 keywords2 : list string) :
  lower <$> transcription1 = lower <$> transcription2 ->
  lower <$> keywords1 = lower <$> keywords2 ->
  detections transcription1 keywords1 = detections transcription2 keywords2 /\
  lowered transcription1 = lowered transcription2 /\
  truthy transcription1 = truthy transcription2.
Proof.
  intros Ht Hk. unfold detections, lowered, found.
  destruct transcription1 as [t1|], transcription2 as [t2|]; simpl in *; try done.
  injection Ht as Ht. rewrite <- Hk.
  destruct t1 as [|c1 t1], t2 as [|c2 t2]; try done. by rewrite Ht.
Qed.

(** ** More about the aggregate counts *)

Lemma filter_all (P : string -> Prop) `{forall x, Decision (P x)} (l : list string) :
  Forall P l -> filter P l = l.
Proof.
  induction 1 as [|x l Hx _ IH]; [done|]. rewrite filter_cons, decide_True by done.
  by rewrite IH.
Qed.

Lemma remove_dups_NoDup (l : list string) : NoDup l -> remove_dups l = l.
Proof.
  induction 1 as [|x l Hx _ IH]; [done|]. simpl.
  destruct (decide_rel elem_of x l); [done|]. by rewrite IH.
Qed.

(** A duplicate-free list of detected keywords that are all asked for has
    no false positive. *)
Lemma spec_true_positives_sublist (detected keywords : list string) :
  NoDup detected -> Forall (fun k => k ∈ keywords) detected ->
  spec_true_positives detected keywords = Z.of_nat (length detected).
Proof.
  intros Hnd Hall. unfold spec_true_positives, common.
  by rewrite filter_all, remove_dups_NoDup.
Qed.

Lemma accuracy_tp_comm (l1 l2 : list string) : accuracy_tp l1 l2 = accuracy_tp l2 l1.
Proof. unfold accuracy_tp. by rewrite (comm_L (∩)). Qed.

Lemma spec_true_positives_comm (l1 l2 : list string) :
  spec_true_positives l1 l2 = spec_true_positives l2 l1.
Proof.
  unfold spec_true_positives. rewrite <- !accuracy_tp_common. apply accuracy_tp_comm.
Qed.

Lemma spec_true_positives_zero (detected keywords : list string) :
  spec_true_positives detected keywords = 0 <->
  forall k, k ∈ detected -> k ∉ keywords.
Proof.
  unfold spec_true_positives, common. split.
  - intros Hz k Hd Hk.
    assert (k ∈ remove_dups (filter (fun k => k ∈ keywords) detected)) as Hin.
    { apply elem_of_remove_dups, list_elem_of_filter. done. }
    destruct (remove_dups (filter (fun k => k ∈ keywords) detected));
      [by apply not_elem_of_nil in Hin|simpl in Hz; lia].
  - intros Hno.
    destruct (remove_dups (filter (fun k => k ∈ keywords) detected))
      as [|k l] eqn:He; [done|]. exfalso.
    assert (k ∈ remove_dups (filter (fun k => k ∈ keywords) detected)) as Hin
      by (rewrite He; left).
    apply elem_of_remove_dups, list_elem_of_filter in Hin as [Hk Hd].
    by apply (Hno k).
Qed.

(** ** More exact arithmetic *)

Lemma inject_Z_pos (x : Z) : 0 < x -> (0 < inject_Z x)%Q.
Proof. intros Hx. change 0%Q with (inject_Z 0). rewrite <- Zlt_Qlt. lia. Qed.


Lemma Q_guarded_ratio_eq (x y : Z) :
  0 < y -> (guarded_ratio (R := Q) x y == inject_Z x / inject_Z y)%Q.
Proof.
  intros Hy. unfold guarded_ratio. simpl. by destruct (Z.gtb_spec y 0); [|lia].
Qed.

Lemma Q_guarded_ratio_positive (x y : Z) :
  0 < x <= y -> (0 < guarded_ratio (R := Q) x y)%Q.
Proof.
  intros [Hx Hy]. rewrite Q_guarded_ratio_eq by lia.
  apply Qlt_shift_div_l; [apply inject_Z_pos; lia|].
  rewrite Qmult_0_l. apply inject_Z_pos; lia.
Qed.

Lemma Q_guarded_ratio_one (x : Z) : 0 < x -> (guarded_ratio (R := Q) x x == 1)%Q.
Proof.
  intros Hx. rewrite Q_guarded_ratio_eq by lia. apply Qmult_inv_r.
  pose proof (inject_Z_pos x Hx). lra.
Qed.

Lemma Q_positive_proper (x y : Q) : (x == y)%Q -> Q_positive x = Q_positive y.
Proof. intros Hxy. unfold Q_positive. by rewrite Hxy. Qed.

#[global] Instance Q_guarded_f1_proper :
  Proper (Qeq ==> Qeq ==> Qeq) (guarded_f1 (R := Q)).
Proof.
  intros p p' Hp r r' Hr. unfold guarded_f1. simpl.
  rewrite (Q_positive_proper (p + r) (p' + r')) by (by rewrite Hp, Hr).
  destruct (Q_positive (p' + r')); [|reflexivity]. by rewrite Hp, Hr.
Qed.

Lemma Q_guarded_f1_comm (p r : Q) : (guarded_f1 p r == guarded_f1 r p)%Q.
Proof.
  unfold guarded_f1. simpl.
  rewrite (Q_positive_proper (p + r) (r + p)) by ring.
  destruct (Q_positive (r + p)); [|reflexivity].
  unfold Qdiv. rewrite (Qplus_comm p r), (Qmult_comm p r). reflexivity.
Qed.

Lemma Q_guarded_f1_eq (p r : Q) :
  (0 < p + r)%Q -> (guarded_f1 p r == 2 * (p * r) / (p + r))%Q.
Proof.
  intros Hpos. unfold guarded_f1. simpl.
  apply Q_positive_spec in Hpos. rewrite Hpos. reflexivity.
Qed.

Lemma Q_guarded_f1_positive (p r : Q) :
  (0 < p)%Q -> (0 < r)%Q -> (0 < guarded_f1 p r)%Q.
Proof.
  intros Hp Hr. rewrite Q_guarded_f1_eq by lra.
  apply Qlt_shift_div_l; [lra|]. nra.
Qed.

Lemma occurrences_of_others_nonneg (kp : gmap string (list (Z * Z))) (k : string) :
  0 <= occurrences_of_others kp k.
Proof.
  unfold occurrences_of_others.
  induction (filter (fun k' => k' <> k) (keys kp)) as [|x l IH]; [done|].
  rewrite fmap_cons. cbn [foldr]. unfold occurrences at 1. lia.
Qed.

(** ** The occurrences a returning call records *)

Lemma times_elem (k : string) (l : list string) : k ∈ l -> (0 < times k l)%nat.
Proof.
  intros Hin. unfold times.
  assert (k ∈ filter (fun k' => k' = k) l) as Hk by (by apply list_elem_of_filter).
  destruct (filter (fun k' => k' = k) l);
    [by apply not_elem_of_nil in Hk|simpl; lia].
Qed.

Lemma times_NoDup_elem (k : string) (l : list string) :
  NoDup l -> k ∈ l -> times k l = 1%nat.
Proof.
  intros Hnd Hin. pose proof (times_le_1 k l Hnd). pose proof (times_elem k l Hin). lia.
Qed.

Lemma detect_keywords_occurrences (transcription : option string)
    (keywords : list string) (d : detection) (k : string) :
  detect_keywords transcription keywords = Ok d ->
  occurrences (keyword_positions d) k =
  if decide (k ∈ keywords)
  then Z.of_nat (times k (detections transcription keywords)) else 0.
Proof.
  intros Hd. apply detect_keywords_ok in Hd as (_ & _ & Hp & _).
  unfold occurrences. rewrite Hp. case_decide; [|done].
  simpl. by rewrite length_replicate.
Qed.

Lemma detect_keywords_recorded (transcription : option string)
    (keywords : list string) (d : detection) :
  detect_keywords transcription keywords = Ok d ->
  recorded (keyword_positions d) = Z.of_nat (length (detected_keywords d)).
Proof.
  intros Hd. pose proof (fun k => detect_keywords_occurrences _ _ _ k Hd) as Hocc.
  apply detect_keywords_ok in Hd as (_ & Hdet & Hp & Hall). rewrite Hdet.
  unfold recorded.
  rewrite (sum_ext _ (fun k => Z.of_nat (times k (detections transcription keywords)))).
  - apply sum_times; [apply NoDup_fst_map_to_list|].
    eapply Forall_impl; [exact Hall|]. simpl. intros k Hk.
    apply keys_lookup. rewrite Hp, decide_True by done. eauto.
  - intros k Hk. rewrite Hocc. apply keys_lookup in Hk as [l Hl].
    rewrite Hp in Hl. by case_decide.
Qed.

(** ** The per-keyword metrics in exact arithmetic *)

Lemma occurrences_le_recorded (kp : gmap string (list (Z * Z))) (k : string) :
  0 <= occurrences kp k <= recorded kp.
Proof.
  pose proof (occurrences_of_others_spec kp k).
  pose proof (occurrences_of_others_nonneg kp k).
  unfold occurrences at 1 2. unfold occurrences in *. lia.
Qed.

Lemma Q_metric_of_precision (kp : gmap string (list (Z * Z))) (k : string) :
  (precision (metric_of (R := Q) kp k) * inject_Z (recorded kp)
   == inject_Z (occurrences kp k))%Q /\
  ((0 < occurrences kp k)%Z ->
   (precision (metric_of (R := Q) kp k)
    == inject_Z (occurrences kp k) / inject_Z (recorded kp))%Q) /\
  (occurrences kp k = 0%Z -> (precision (metric_of (R := Q) kp k) == 0)%Q).
Proof.
  pose proof (occurrences_le_recorded kp k) as [H0 Hle].
  cbn [metric_of precision]. rewrite occurrences_of_others_spec.
  replace (occurrences kp k + (recorded kp - occurrences kp k))
    with (recorded kp) by lia.
  split; [|split].
  - destruct (decide (0 < recorded kp)) as [Hpos|Hz].
    + rewrite Q_guarded_ratio_eq by done. field.
      pose proof (inject_Z_pos _ Hpos). lra.
    + replace (recorded kp) with 0 by lia. replace (occurrences kp k) with 0 by lia.
      rewrite Q_guarded_ratio_zero. reflexivity.
  - intros Hpos. apply Q_guarded_ratio_eq. lia.
  - intros ->. apply Q_guarded_ratio_zero.
Qed.

Lemma Q_metric_of_recall (kp : gmap string (list (Z * Z))) (k : string) :
  (recall (metric_of (R := Q) kp k)
   == if decide (0 < occurrences kp k)%Z then 1 else 0)%Q.
Proof.
  pose proof (occurrences_le_recorded kp k) as [H0 _].
  cbn [metric_of recall]. case_decide as Hpos.
  - destruct (Z.eqb_spec (occurrences kp k) 0); [lia|].
    rewrite Z.add_0_r. by apply Q_guarded_ratio_one.
  - replace (occurrences kp k) with 0 by lia. apply Q_guarded_ratio_zero.
Qed.

Lemma Q_metric_of_f1 (kp : gmap string (list (Z * Z))) (k : string) :
  (f1_score (metric_of (R := Q) kp k)
   * inject_Z (occurrences kp k + recorded kp)
   == 2 * inject_Z (occurrences kp k))%Q.
Proof.
  pose proof (occurrences_le_recorded kp k) as [H0 Hle].
  pose proof (Q_metric_of_precision kp k) as (_ & Hp & Hp0).
  pose proof (Q_metric_of_recall kp k) as Hr.
  change (f1_score (metric_of (R := Q) kp k))
    with (guarded_f1 (precision (metric_of (R := Q) kp k))
            (recall (metric_of (R := Q) kp k))).
  destruct (decide (0 < occurrences kp k)) as [Hpos|Hz].
  - rewrite Hr, (Hp Hpos). rewrite inject_Z_plus.
    pose proof (inject_Z_pos _ Hpos) as Htp.
    assert (0 < inject_Z (recorded kp))%Q as Hrec by (apply inject_Z_pos; lia).
    assert (0 < inject_Z (occurrences kp k) / inject_Z (recorded kp))%Q as Hq.
    { apply Qlt_shift_div_l; [done|]. lra. }
    rewrite Q_guarded_f1_eq by lra. field. split; [lra|].
    intros Hbad. nra.
  - assert (occurrences kp k = 0) as Ho by lia.
    rewrite (Q_guarded_f1_zero _ _ (Hp0 Ho)), Ho. reflexivity.
Qed.

Lemma fmap_lower_id (ks : list string) :
  Forall (fun k => lower k = k) ks -> lower <$> ks = ks.
Proof. induction 1 as [|k ks Hk _ IH]; [done|]. by rewrite fmap_cons, Hk, IH. Qed.

(** ** The time mapper in exact arithmetic *)




(** ** The callers *)

(** The only exception of [detect_keywords] is the [KeyError] of line 57,
    for a detected keyword that is no entry of the keyword list. *)
Lemma detect_keywords_raise_inv (transcription : option string)
    (keywords : list string) (e : exn) :
  detect_keywords transcription keywords = Raise e ->
  exists k, e = KeyError k /\ k ∈ detections transcription keywords /\ k ∉ keywords.
Proof.
  intros He.
  destruct (decide (Forall (fun k => k ∈ keywords)
                      (detections transcription keywords))) as [HF|Hn].
  - destruct (detect_keywords_returns _ _ HF) as [d Hd]. congruence.
  - apply not_Forall_Exists in Hn; [|intros k; apply _].
    apply Exists_exists in Hn as (k & Hin & Hnin).
    destruct (detect_keywords_raises _ _ k Hin Hnin) as (k' & Hr & Hin' & Hnin').
    exists k'. split; [congruence|done].
Qed.

Lemma truthy_Some (transcription : option string) :
  truthy transcription = true ->
  exists text, transcription = Some text /\ text <> "" /\ 0 < len text.
Proof.
  destruct transcription as [[|c t]|]; try done. intros _.
  exists (String c t). split; [done|]. split; [done|]. unfold len. simpl. lia.
Qed.


Section CallerFacts.
Context {R : Type} `{Number R}.
Context {audio : Type}.
Variable record : string -> outcome audio.
Variable recognize_google : audio -> string -> outcome string.

(** [audio_to_text] returns a text exactly when the recording is read and
    recognized. *)
Lemma audio_to_text_Some (audio_file language text : string) :
  (audio_to_text record recognize_google audio_file language).2 = Some text <->
  exists a, record audio_file = Returns a /\
    recognize_google a language = Returns text.
Proof.
  unfold audio_to_text, audio_to_text_try.
  destruct (record audio_file) as [a|e]; simpl.
  - destruct (recognize_google a language) as [text'|[m|m|m]] eqn:Hr; simpl.
    + split; [intros [= ->]; eauto|]. intros (a' & [= <-] & Hr'). congruence.
    + split; [done|]. intros (a' & [= <-] & Hr'). congruence.
    + split; [done|]. intros (a' & [= <-] & Hr'). congruence.
    + split; [done|]. intros (a' & [= <-] & Hr'). congruence.
  - split; [done|]. by intros (a' & ? & _).
Qed.

Lemma plots_app (l1 l2 : list (event (R := R))) :
  plots (l1 ++ l2) = plots l1 ++ plots l2.
Proof. apply omap_app. Qed.

Lemma reported_app (l1 l2 : list (event (R := R))) :
  reported (l1 ++ l2) = reported l1 ++ reported l2.
Proof. apply omap_app. Qed.



Lemma plots_Text (lines : list string) : plots (R := R) (Text <$> lines) = [].
Proof. induction lines as [|l ls IH]; [done|]. exact IH. Qed.

Lemma reported_Text (lines : list string) : reported (R := R) (Text <$> lines) = [].
Proof. induction lines as [|l ls IH]; [done|]. exact IH. Qed.





End CallerFacts.

(** * Part VI: further properties of the program *)

(** ** The three outputs of the detector *)

(** When a call returns, the occurrence list and the detected-keyword list
    run in step: the keywords of the occurrences, in order, are the
    detected keywords, and each occurrence carries the first match of its
    keyword in the lower-cased transcript. *)
Theorem detect_keywords_outputs_aligned (transcription : option string)
    (keywords : list string) (d : detection) :
  detect_keywords transcription keywords = Ok d ->
  (fun o : string * Z * Z => o.1.1) <$> keyword_intervals d = detected_keywords d /\
  length (keyword_intervals d) = length (detected_keywords d) /\
  Forall (fun o : string * Z * Z =>
            o.1.2 = find (lowered transcription) o.1.1 /\
            o.2 = o.1.2 + len o.1.1 /\ 0 <= o.1.2)
         (keyword_intervals d).
Proof.
  intros Hd. apply detect_keywords_ok in Hd as (Hi & Hdet & _ & _).
  rewrite Hi, Hdet. split; [|split].
  - rewrite <- list_fmap_compose. by rewrite list_fmap_id.
  - by rewrite length_fmap.
  - apply Forall_fmap, Forall_forall. intros k Hk. simpl.
    apply detections_lower in Hk as (Hf & _).
    by destruct (find_found _ _ Hf) as (? & _).
Qed.

(** The outputs of a run with two detections. *)
Lemma detect_keywords_outputs_aligned_witness :
  detect_keywords (Some "Big cat, small cat") ["cat"; "dog"; "big"] =
    Ok (Detection [("cat", 4, 7); ("big", 0, 3)] ["cat"; "big"]
          (<["cat" := [(4, 7)]]> (<["dog" := []]> (<["big" := [(0, 3)]]> ∅)))
          ["Keyword 'dog' not found."]) /\
  (fun o : string * Z * Z => o.1.1) <$> [("cat", 4, 7); ("big", 0, 3)] = ["cat"; "big"] /\
  length [("cat", 4, 7); ("big", 0, 3)] = length ["cat"; "big"] /\
  Forall (fun o : string * Z * Z =>
            o.1.2 = find (lowered (Some "Big cat, small cat")) o.1.1 /\
            o.2 = o.1.2 + len o.1.1 /\ 0 <= o.1.2)
         [("cat", 4, 7); ("big", 0, 3)].
Proof.
  assert (detect_keywords (Some "Big cat, small cat") ["cat"; "dog"; "big"] =
    Ok (Detection [("cat", 4, 7); ("big", 0, 3)] ["cat"; "big"]
          (<["cat" := [(4, 7)]]> (<["dog" := []]> (<["big" := [(0, 3)]]> ∅)))
          ["Keyword 'dog' not found."])) as Hrun by (vm_compute; reflexivity).
  split; [exact Hrun|].
  exact (detect_keywords_outputs_aligned _ _ _ Hrun).
Defined.

(** When a call returns, the mapping records as many occurrences, over all
    its keys, as there are detected keywords; a key has an occurrence
    exactly when it is a detected keyword. *)
Theorem detect_keywords_recorded_total (transcription : option string)
    (keywords : list string) (d : detection) :
  detect_keywords transcription keywords = Ok d ->
  recorded (keyword_positions d) = Z.of_nat (length (detected_keywords d)) /\
  (forall k, 0 < occurrences (keyword_positions d) k <-> k ∈ detected_keywords d).
Proof.
  intros Hd. split; [exact (detect_keywords_recorded _ _ _ Hd)|].
  intros k. rewrite (detect_keywords_occurrences _ _ _ _ Hd).
  apply detect_keywords_ok in Hd as (_ & Hdet & _ & Hall). rewrite Hdet. split.
  - case_decide; [|lia]. intros Hpos. apply times_positive. lia.
  - intros Hin. rewrite Forall_forall in Hall.
    rewrite decide_True by (by apply Hall).
    pose proof (times_elem _ _ Hin). lia.
Qed.

(** The total recorded by a run, a repeated keyword included. *)
Lemma detect_keywords_recorded_total_witness :
  detect_keywords (Some "a cat") ["cat"; "a"; "cat"; "dog"] =
    Ok (Detection [("cat", 2, 5); ("a", 0, 1); ("cat", 2, 5)] ["cat"; "a"; "cat"]
          (<["cat" := [(2, 5); (2, 5)]]> (<["a" := [(0, 1)]]> (<["dog" := []]> ∅)))
          ["Keyword 'dog' not found."]) /\
  recorded (<["cat" := [(2, 5); (2, 5)]]> (<["a" := [(0, 1)]]> (<["dog" := []]> ∅))) =
    Z.of_nat (length ["cat"; "a"; "cat"]) /\
  (forall k,
     0 < occurrences
           (<["cat" := [(2, 5); (2, 5)]]> (<["a" := [(0, 1)]]> (<["dog" := []]> ∅))) k
     <-> k ∈ ["cat"; "a"; "cat"]).
Proof.
  assert (detect_keywords (Some "a cat") ["cat"; "a"; "cat"; "dog"] =
    Ok (Detection [("cat", 2, 5); ("a", 0, 1); ("cat", 2, 5)] ["cat"; "a"; "cat"]
          (<["cat" := [(2, 5); (2, 5)]]> (<["a" := [(0, 1)]]> (<["dog" := []]> ∅)))
          ["Keyword 'dog' not found."])) as Hrun by (vm_compute; reflexivity).
  split; [exact Hrun|].
  exact (detect_keywords_recorded_total _ _ _ Hrun).
Defined.

(** When a call returns, it has printed one line for each entry of the
    keyword list that does not occur in the transcript, in the order of the
    list, and nothing else: with a transcript, the detected keywords and
    the printed lines together are as many as the keywords, and no keyword
    is both reported missing and detected. *)
Theorem detect_keywords_reports_missing (transcription : option string)
    (keywords : list string) (d : detection) :
  detect_keywords transcription keywords = Ok d ->
  stdout d =
    (if truthy transcription
     then not_found_lines (lowered transcription) keywords else []) /\
  (truthy transcription = true ->
   (length (detected_keywords d) + length (stdout d) = length keywords)%nat) /\
  (forall line, line ∈ stdout d ->
     exists k0, k0 ∈ keywords /\ line = not_found_line (lower k0) /\
       lower k0 ∉ detected_keywords d).
Proof.
  intros Hd. pose proof (detect_keywords_stdout _ _ _ Hd) as Hout.
  apply detect_keywords_ok in Hd as (_ & Hdet & _ & _).
  split; [done|]. split.
  - intros Ht. rewrite Hout, Ht, Hdet. unfold detections, lowered.
    destruct transcription as [[|c t]|]; try done. simpl.
    apply length_found_not_found.
  - intros line. rewrite Hout, Hdet.
    destruct (truthy transcription); [|by intros ?%not_elem_of_nil].
    unfold not_found_lines. rewrite list_elem_of_fmap.
    intros (k & -> & Hk). apply list_elem_of_filter in Hk as [Hf Hk].
    apply list_elem_of_fmap in Hk as (k0 & -> & Hk0).
    exists k0. split; [done|]. split; [done|].
    intros Hin. by apply detections_lower in Hin as (? & _).
Qed.

(** A run that misses two keywords. *)
Lemma detect_keywords_reports_missing_witness :
  detect_keywords (Some "the quick brown fox") ["cat"; "quick"; "dog"] =
    Ok (Detection [("quick", 4, 9)] ["quick"]
          (<["cat" := []]> (<["quick" := [(4, 9)]]> (<["dog" := []]> ∅)))
          ["Keyword 'cat' not found."; "Keyword 'dog' not found."]) /\
  ["Keyword 'cat' not found."; "Keyword 'dog' not found."] =
    (if truthy (Some "the quick brown fox")
     then not_found_lines (lowered (Some "the quick brown fox"))
            ["cat"; "quick"; "dog"]
     else []) /\
  (truthy (Some "the quick brown fox") = true ->
   (length ["quick"] + length ["Keyword 'cat' not found."; "Keyword 'dog' not found."]
    = length ["cat"; "quick"; "dog"])%nat) /\
  (forall line, line ∈ ["Keyword 'cat' not found."; "Keyword 'dog' not found."] ->
     exists k0, k0 ∈ ["cat"; "quick"; "dog"] /\ line = not_found_line (lower k0) /\
       lower k0 ∉ ["quick"]).
Proof.
  assert (detect_keywords (Some "the quick brown fox") ["cat"; "quick"; "dog"] =
    Ok (Detection [("quick", 4, 9)] ["quick"]
          (<["cat" := []]> (<["quick" := [(4, 9)]]> (<["dog" := []]> ∅)))
          ["Keyword 'cat' not found."; "Keyword 'dog' not found."]))
    as Hrun by (vm_compute; reflexivity).
  split; [exact Hrun|].
  exact (detect_keywords_reports_missing _ _ _ Hrun).
Defined.

(** Detection does not depend on the case of the transcript, nor, as long
    as the calls return, on the case of the keywords: two calls whose
    transcripts and keyword lists agree after lower-casing return the same
    occurrences, the same detected keywords and print the same lines. *)
Theorem detect_keywords_case_insensitive (transcription1 transcription2 : option string)
    (keywords1 keywords2 : list string) (d1 d2 : detection) :
  lower <$> transcription1 = lower <$> transcription2 ->
  lower <$> keywords1 = lower <$> keywords2 ->
  detect_keywords transcription1 keywords1 = Ok d1 ->
  detect_keywords transcription2 keywords2 = Ok d2 ->
  keyword_intervals d1 = keyword_intervals d2 /\
  detected_keywords d1 = detected_keywords d2 /\
  stdout d1 = stdout d2.
Proof.
  intros Ht Hk H1 H2.
  destruct (detections_fmap_lower _ _ _ _ Ht Hk) as (Hdet & Hlow & Htr).
  pose proof (detect_keywords_stdout _ _ _ H1) as Ho1.
  pose proof (detect_keywords_stdout _ _ _ H2) as Ho2.
  apply detect_keywords_ok in H1 as (Hi1 & Hd1 & _ & _).
  apply detect_keywords_ok in H2 as (Hi2 & Hd2 & _ & _).
  rewrite Hi1, Hi2, Hd1, Hd2, Ho1, Ho2, Hdet, Hlow, Htr.
  unfold not_found_lines. by rewrite Hk.
Qed.

(** The same words in two spellings. *)
Lemma detect_keywords_case_insensitive_witness :
  lower <$> Some "The Fox" = lower <$> Some "the fox" /\
  lower <$> ["fox"; "Dog"] = lower <$> ["fox"; "dog"] /\
  detect_keywords (Some "The Fox") ["fox"; "Dog"] =
    Ok (Detection [("fox", 4, 7)] ["fox"] (<["fox" := [(4, 7)]]> (<["Dog" := []]> ∅))
          ["Keyword 'dog' not found."]) /\
  detect_keywords (Some "the fox") ["fox"; "dog"] =
    Ok (Detection [("fox", 4, 7)] ["fox"] (<["fox" := [(4, 7)]]> (<["dog" := []]> ∅))
          ["Keyword 'dog' not found."]) /\
  [("fox", 4, 7)] = [("fox", 4, 7)] /\ ["fox"] = ["fox"] /\
  ["Keyword 'dog' not found."] = ["Keyword 'dog' not found."].
Proof.
  assert (lower <$> Some "The Fox" = lower <$> Some "the fox") as Ht by reflexivity.
  assert (lower <$> ["fox"; "Dog"] = lower <$> ["fox"; "dog"]) as Hk by reflexivity.
  assert (detect_keywords (Some "The Fox") ["fox"; "Dog"] =
    Ok (Detection [("fox", 4, 7)] ["fox"] (<["fox" := [(4, 7)]]> (<["Dog" := []]> ∅))
          ["Keyword 'dog' not found."])) as H1 by (vm_compute; reflexivity).
  assert (detect_keywords (Some "the fox") ["fox"; "dog"] =
    Ok (Detection [("fox", 4, 7)] ["fox"] (<["fox" := [(4, 7)]]> (<["dog" := []]> ∅))
          ["Keyword 'dog' not found."])) as H2 by (vm_compute; reflexivity).
  split; [exact Ht|]. split; [exact Hk|]. split; [exact H1|]. split; [exact H2|].
  exact (detect_keywords_case_insensitive _ _ _ _ _ _ Ht Hk H1 H2).
Defined.



(** ** The aggregate metrics *)

(** Swapping the two lists swaps precision and recall and leaves F1 as it
    is: the swap is exact on every carrier for precision and recall, and
    F1 is the same number in exact arithmetic. *)
Theorem compute_accuracy_swap :
  (forall (R : Type) (N : Number R) (detected keywords : list string),
     exists p r f f',
       compute_accuracy detected keywords = Ok (p, r, f) /\
       compute_accuracy keywords detected = Ok (r, p, f')) /\
  (forall detected keywords : list string,
     exists p r f f',
       compute_accuracy (R := Q) detected keywords = Ok (p, r, f) /\
       compute_accuracy (R := Q) keywords detected = Ok (r, p, f') /\
       (f == f')%Q).
Proof.
  assert (forall (R : Type) (N : Number R) (detected keywords : list string),
     compute_accuracy keywords detected =
     Ok (spec_recall detected keywords, spec_precision detected keywords,
         guarded_f1 (spec_recall detected keywords)
           (spec_precision detected keywords))) as Hswap.
  { intros R N detected keywords. rewrite compute_accuracy_spec.
    unfold spec_f1, spec_precision, spec_recall, spec_false_positives,
      spec_false_negatives.
    by rewrite (spec_true_positives_comm keywords detected). }
  split.
  - intros R N detected keywords. eexists _, _, _, _.
    split; [apply compute_accuracy_spec|apply Hswap].
  - intros detected keywords. eexists _, _, _, _.
    split; [apply compute_accuracy_spec|]. split; [apply Hswap|].
    apply Q_guarded_f1_comm.
Qed.

(** The three aggregate metrics vanish together: in exact arithmetic they
    are all 0 when no detected keyword is a keyword of the list, and all
    positive as soon as one is. *)
Theorem compute_accuracy_zero_iff :
  forall detected keywords : list string,
    exists p r f,
      compute_accuracy (R := Q) detected keywords = Ok (p, r, f) /\
      ((forall k, k ∈ detected -> k ∉ keywords) ->
       (p == 0)%Q /\ (r == 0)%Q /\ (f == 0)%Q) /\
      ((exists k, k ∈ detected /\ k ∈ keywords) ->
       (0 < p)%Q /\ (0 < r)%Q /\ (0 < f)%Q).
Proof.
  intros detected keywords. rewrite compute_accuracy_spec.
  eexists _, _, _. split; [reflexivity|].
  pose proof (accuracy_tp_bounds detected keywords) as (H0 & Hd & Hk).
  rewrite accuracy_tp_common in H0, Hd, Hk.
  fold (spec_true_positives detected keywords) in H0, Hd, Hk.
  unfold spec_f1, spec_precision, spec_recall, spec_false_positives,
    spec_false_negatives.
  split.
  - intros Hno. apply spec_true_positives_zero in Hno. rewrite Hno.
    split; [apply Q_guarded_ratio_zero|]. split; [apply Q_guarded_ratio_zero|].
    apply Q_guarded_f1_zero, Q_guarded_ratio_zero.
  - intros (k & Hkd & Hkk).
    assert (0 < spec_true_positives detected keywords) as Hpos.
    { destruct (decide (spec_true_positives detected keywords = 0)) as [Hz|]; [|lia].
      exfalso. by apply (proj1 (spec_true_positives_zero _ _) Hz k). }
    assert (0 < guarded_ratio (R := Q) (spec_true_positives detected keywords)
                  (spec_true_positives detected keywords +
                   (Z.of_nat (length detected) - spec_true_positives detected keywords)))%Q
      as Hp by (apply Q_guarded_ratio_positive; lia).
    assert (0 < guarded_ratio (R := Q) (spec_true_positives detected keywords)
                  (spec_true_positives detected keywords +
                   (Z.of_nat (length keywords) - spec_true_positives detected keywords)))%Q
      as Hr by (apply Q_guarded_ratio_positive; lia).
    split; [exact Hp|]. split; [exact Hr|]. by apply Q_guarded_f1_positive.
Qed.

(** For a duplicate-free keyword list in lower case the detector never adds
    a false positive: the call returns, the true positives are the detected
    keywords, and in exact arithmetic precision is 1 as soon as a keyword
    is detected (0 otherwise) and recall is the detected share of the
    keyword list. *)
Theorem pipeline_precision_is_one (transcription : option string)
    (keywords : list string) :
  Forall (fun k => lower k = k) keywords -> NoDup keywords ->
  exists d p r f,
    detect_keywords transcription keywords = Ok d /\
    spec_true_positives (detected_keywords d) keywords =
      Z.of_nat (length (detected_keywords d)) /\
    spec_false_positives (detected_keywords d) keywords = 0 /\
    compute_accuracy (R := Q) (detected_keywords d) keywords = Ok (p, r, f) /\
    (p == if decide (detected_keywords d = []) then 0 else 1)%Q /\
    (r == inject_Z (Z.of_nat (length (detected_keywords d)))
          / inject_Z (Z.of_nat (length keywords)))%Q.
Proof.
  intros Hlow Hnd.
  pose proof (fmap_lower_id _ Hlow) as Hmap.
  assert (Forall (fun k => k ∈ keywords) (detections transcription keywords)) as Hall.
  { apply Forall_forall. intros k Hk.
    apply detections_lower in Hk as (_ & _ & k0 & Hk0 & ->).
    rewrite Forall_forall in Hlow. by rewrite (Hlow k0 Hk0). }
  destruct (detect_keywords_returns transcription keywords Hall) as [d Hd].
  pose proof Hd as Hd'. apply detect_keywords_ok in Hd' as (_ & Hdet & _ & _).
  assert (spec_true_positives (detected_keywords d) keywords =
          Z.of_nat (length (detected_keywords d))) as Htp.
  { rewrite Hdet. apply spec_true_positives_sublist; [|done].
    apply detections_NoDup. by rewrite Hmap. }
  assert ((length (detected_keywords d) <= length keywords)%nat) as Hle.
  { rewrite Hdet. unfold detections.
    destruct transcription as [[|c t]|]; simpl; try lia.
    unfold found. rewrite Hmap. apply length_filter. }
  exists d. eexists _, _, _. split; [done|]. split; [done|].
  split; [unfold spec_false_positives; lia|].
  split; [apply compute_accuracy_spec|].
  unfold spec_precision, spec_recall, spec_false_positives, spec_false_negatives.
  rewrite Htp.
  replace (Z.of_nat (length (detected_keywords d)) +
           (Z.of_nat (length (detected_keywords d)) -
            Z.of_nat (length (detected_keywords d))))
    with (Z.of_nat (length (detected_keywords d))) by lia.
  replace (Z.of_nat (length (detected_keywords d)) +
           (Z.of_nat (length keywords) - Z.of_nat (length (detected_keywords d))))
    with (Z.of_nat (length keywords)) by lia.
  split.
  - destruct (detected_keywords d) as [|k l]; [reflexivity|].
    rewrite decide_False by done. apply Q_guarded_ratio_one. simpl length. lia.
  - destruct (decide (length keywords = 0%nat)) as [Hz|Hnz].
    + rewrite Hz in *. replace (length (detected_keywords d)) with 0%nat by lia.
      reflexivity.
    + apply Q_guarded_ratio_eq. lia.
Qed.

(** Two of three lower-case keywords detected: precision 1, recall 2/3. *)
Lemma pipeline_precision_is_one_witness :
  Forall (fun k => lower k = k) ["fox"; "cat"; "the"] /\ NoDup ["fox"; "cat"; "the"] /\
  exists d p r f,
    detect_keywords (Some "The quick brown Fox") ["fox"; "cat"; "the"] = Ok d /\
    detected_keywords d = ["fox"; "the"] /\
    compute_accuracy (R := Q) (detected_keywords d) ["fox"; "cat"; "the"] = Ok (p, r, f) /\
    (p == 1)%Q /\ (r == 2 # 3)%Q.
Proof.
  assert (Forall (fun k => lower k = k) ["fox"; "cat"; "the"]) as Hlow
    by (repeat constructor).
  assert (NoDup ["fox"; "cat"; "the"]) as Hnd.
  { repeat constructor; rewrite ?elem_of_cons, ?elem_of_nil; intros H;
      repeat destruct H as [H|H]; discriminate || done. }
  split; [exact Hlow|]. split; [exact Hnd|].
  destruct (pipeline_precision_is_one (Some "The quick brown Fox")
              ["fox"; "cat"; "the"] Hlow Hnd)
    as (d & p & r & f & Hd & _ & _ & Hacc & Hp & Hr).
  assert (detected_keywords d = ["fox"; "the"]) as Hdet.
  { vm_compute in Hd. by injection Hd as <-. }
  exists d, p, r, f. rewrite Hdet in Hp, Hr. split; [exact Hd|].
  split; [exact Hdet|]. split; [exact Hacc|]. split; [exact Hp|exact Hr].
Defined.

(** ** The per-keyword metrics *)

(** [compute_individual_keyword_metrics] never raises, whatever the mapping
    and the list: the dict it returns has exactly the keywords of the list
    as keys, one entry for a repeated keyword.  A keyword that is no key of
    the mapping is read as having no occurrence: 0 true positives, 1 false
    negative, every recorded occurrence a false positive, and in exact
    arithmetic precision, recall and F1 all 0. *)
Theorem per_keyword_metrics_keys :
  (forall (R : Type) (N : Number R) (kp : gmap string (list (Z * Z)))
          (keywords : list string),
     exists m, compute_individual_keyword_metrics kp keywords = Ok m /\
       dom m = list_to_set keywords /\
       forall k x, m !! k = Some x -> kp !! k = None ->
         true_positives x = 0 /\ false_negatives x = 1 /\
         false_positives x = recorded kp) /\
  (forall (kp : gmap string (list (Z * Z))) (keywords : list string) (k : string),
     k ∈ keywords -> kp !! k = None ->
     exists m x, compute_individual_keyword_metrics (R := Q) kp keywords = Ok m /\
       m !! k = Some x /\
       (precision x == 0)%Q /\ (recall x == 0)%Q /\ (f1_score x == 0)%Q).
Proof.
  split.
  - intros R N kp keywords.
    destruct (compute_individual_keyword_metrics_ok kp keywords) as (m & Hm & Hl).
    exists m. split; [done|]. split.
    + apply set_eq. intros k. rewrite elem_of_dom, Hl, elem_of_list_to_set.
      case_decide; [|split; [by intros [? ?]|done]]. split; eauto.
    + intros k x Hx Hk. rewrite Hl in Hx. case_decide; [|done].
      injection Hx as <-. cbn [metric_of true_positives false_negatives false_positives].
      rewrite occurrences_of_others_spec, (occurrences_absent _ _ Hk).
      split; [done|]. split; [done|lia].
  - intros kp keywords k Hin Hk.
    destruct (compute_individual_keyword_metrics_ok (R := Q) kp keywords)
      as (m & Hm & Hl).
    exists m, (metric_of kp k). split; [done|]. split.
    { rewrite Hl. by rewrite decide_True. }
    pose proof (occurrences_absent _ _ Hk) as Ho.
    destruct (Q_metric_of_precision kp k) as (_ & _ & Hp).
    pose proof (Q_metric_of_recall kp k) as Hr. rewrite Ho in Hr.
    split; [by apply Hp|]. split; [exact Hr|].
    change (f1_score (metric_of (R := Q) kp k))
      with (guarded_f1 (precision (metric_of (R := Q) kp k))
              (recall (metric_of (R := Q) kp k))).
    by apply Q_guarded_f1_zero, Hp.
Qed.

(** A keyword the mapping does not know. *)
Lemma per_keyword_metrics_keys_witness :
  "zebra" ∈ ["a"; "zebra"] /\
  (<["a" := [(0, 1)]]> ∅ : gmap string (list (Z * Z))) !! "zebra" = None /\
  exists m x,
    compute_individual_keyword_metrics (R := Q) (<["a" := [(0, 1)]]> ∅)
      ["a"; "zebra"] = Ok m /\
    m !! "zebra" = Some x /\
    (precision x == 0)%Q /\ (recall x == 0)%Q /\ (f1_score x == 0)%Q.
Proof.
  assert ("zebra" ∈ ["a"; "zebra"]) as Hin by (right; left).
  assert ((<["a" := [(0, 1)]]> ∅ : gmap string (list (Z * Z))) !! "zebra" = None)
    as Hk by reflexivity.
  split; [exact Hin|]. split; [exact Hk|].
  exact (proj2 per_keyword_metrics_keys _ ["a"; "zebra"] "zebra" Hin Hk).
Defined.

(** In exact arithmetic the precision stored for a keyword is its share of
    all the occurrences the mapping records, its recall is 1 as soon as it
    has an occurrence and 0 otherwise, and its F1 is
    2 tp / (tp + all recorded occurrences). *)
Theorem per_keyword_precision_share (kp : gmap string (list (Z * Z)))
    (keywords : list string) (k : string) :
  k ∈ keywords ->
  exists m x, compute_individual_keyword_metrics (R := Q) kp keywords = Ok m /\
    m !! k = Some x /\
    true_positives x + false_positives x = recorded kp /\
    (precision x * inject_Z (recorded kp) == inject_Z (true_positives x))%Q /\
    (recall x == if decide (0 < true_positives x)%Z then 1 else 0)%Q /\
    (f1_score x * inject_Z (true_positives x + recorded kp)
     == 2 * inject_Z (true_positives x))%Q.
Proof.
  intros Hin.
  destruct (compute_individual_keyword_metrics_ok (R := Q) kp keywords)
    as (m & Hm & Hl).
  exists m, (metric_of kp k). split; [done|]. split.
  { rewrite Hl. by rewrite decide_True. }
  split.
  { cbn [metric_of true_positives false_positives].
    rewrite occurrences_of_others_spec. lia. }
  destruct (Q_metric_of_precision kp k) as (Hp & _ & _).
  split; [exact Hp|]. split; [apply Q_metric_of_recall|apply Q_metric_of_f1].
Qed.

(** Three occurrences recorded, two of them for "a". *)
Lemma per_keyword_precision_share_witness :
  "a" ∈ ["a"; "b"] /\
  exists m x,
    compute_individual_keyword_metrics (R := Q)
      (<["a" := [(0, 1); (0, 1)]]> (<["b" := [(2, 3)]]> ∅)) ["a"; "b"] = Ok m /\
    m !! "a" = Some x /\
    (precision x == 2 # 3)%Q /\ (recall x == 1)%Q /\ (f1_score x == 4 # 5)%Q.
Proof.
  assert ("a" ∈ ["a"; "b"]) as Hin by left.
  split; [exact Hin|].
  destruct (per_keyword_precision_share
              (<["a" := [(0, 1); (0, 1)]]> (<["b" := [(2, 3)]]> ∅))
              ["a"; "b"] "a" Hin) as (m & x & Hm & Hx & _).
  exists m, x. split; [exact Hm|]. split; [exact Hx|].
  vm_compute in Hm. injection Hm as <-. vm_compute in Hx. injection Hx as <-.
  by repeat split.
Defined.

(** With a duplicate-free keyword list in lower case, a detected keyword
    gets, in exact arithmetic, precision 1 / n and recall 1, where n is the
    number of detected keywords: its precision falls as more of the other
    keywords are found. *)
Theorem pipeline_keyword_precision (transcription : option string)
    (keywords : list string) (d : detection) (k : string) :
  Forall (fun k => lower k = k) keywords -> NoDup keywords ->
  detect_keywords transcription keywords = Ok d ->
  k ∈ detected_keywords d ->
  exists m x,
    compute_individual_keyword_metrics (R := Q) (keyword_positions d) keywords = Ok m /\
    m !! k = Some x /\
    true_positives x = 1 /\
    false_positives x = Z.of_nat (length (detected_keywords d)) - 1 /\
    (precision x == 1 / inject_Z (Z.of_nat (length (detected_keywords d))))%Q /\
    (recall x == 1)%Q.
Proof.
  intros Hlow Hnd Hd Hk.
  pose proof (fmap_lower_id _ Hlow) as Hmap.
  pose proof (detect_keywords_recorded _ _ _ Hd) as Hrec.
  pose proof (detect_keywords_occurrences _ _ _ k Hd) as Hocc.
  pose proof Hd as Hd'. apply detect_keywords_ok in Hd' as (_ & Hdet & _ & Hall).
  rewrite Hdet in Hk. rewrite Forall_forall in Hall.
  rewrite decide_True in Hocc by (by apply Hall).
  rewrite times_NoDup_elem in Hocc
    by (done || apply detections_NoDup; by rewrite Hmap).
  destruct (compute_individual_keyword_metrics_ok (R := Q) (keyword_positions d)
              keywords) as (m & Hm & Hl).
  exists m, (metric_of (keyword_positions d) k). split; [done|]. split.
  { rewrite Hl. rewrite decide_True; [done|]. by apply Hall. }
  split; [exact Hocc|]. split.
  { cbn [metric_of false_positives]. rewrite occurrences_of_others_spec. lia. }
  destruct (Q_metric_of_precision (keyword_positions d) k) as (_ & Hp & _).
  pose proof (Q_metric_of_recall (keyword_positions d) k) as Hr.
  rewrite Hocc in Hp, Hr. split.
  - rewrite Hp by lia. by rewrite Hrec.
  - exact Hr.
Qed.

(** Two keywords detected: each has precision 1/2. *)
Lemma pipeline_keyword_precision_witness :
  Forall (fun k => lower k = k) ["fox"; "cat"; "the"] /\ NoDup ["fox"; "cat"; "the"] /\
  exists d m x,
    detect_keywords (Some "The quick brown Fox") ["fox"; "cat"; "the"] = Ok d /\
    "fox" ∈ detected_keywords d /\
    compute_individual_keyword_metrics (R := Q) (keyword_positions d)
      ["fox"; "cat"; "the"] = Ok m /\
    m !! "fox" = Some x /\ (precision x == 1 # 2)%Q /\ (recall x == 1)%Q.
Proof.
  assert (Forall (fun k => lower k = k) ["fox"; "cat"; "the"]) as Hlow
    by (repeat constructor).
  assert (NoDup ["fox"; "cat"; "the"]) as Hnd.
  { repeat constructor; rewrite ?elem_of_cons, ?elem_of_nil; intros H;
      repeat destruct H as [H|H]; discriminate || done. }
  assert (detect_keywords (Some "The quick brown Fox") ["fox"; "cat"; "the"] =
    Ok (Detection [("fox", 16, 19); ("the", 0, 3)] ["fox"; "the"]
          (<["fox" := [(16, 19)]]> (<["cat" := []]> (<["the" := [(0, 3)]]> ∅)))
          ["Keyword 'cat' not found."])) as Hrun by (vm_compute; reflexivity).
  assert ("fox" ∈ ["fox"; "the"]) as Hin by left.
  split; [exact Hlow|]. split; [exact Hnd|].
  destruct (pipeline_keyword_precision _ _ _ "fox" Hlow Hnd Hrun Hin)
    as (m & x & Hm & Hx & _ & _ & Hp & Hr).
  eexists _, m, x. split; [exact Hrun|]. split; [exact Hin|].
  split; [exact Hm|]. split; [exact Hx|]. split; [exact Hp|exact Hr].
Defined.

(** ** Detection followed by the time mapper *)



(** ** The callers: audio_to_text and main *)

Section CallerProperties.
Context {audio : Type}.
Variable record : string -> outcome audio.
Variable recognize_google : audio -> string -> outcome string.
Variable preprocess_audio : string -> string -> outcome unit.
Variable wavfile_read : string -> outcome (Z * Z).

(** [audio_to_text] returns a text exactly when the recording is read and
    the recognizer returns that text; the line "Audio successfully read from
    file." is printed exactly when the recording is read; a call that
    returns nothing ends its output with one of three diagnostics; and when
    the recording is read and the recognizer then fails with an exception
    other than the two named by the inner handler, the output reports the
    successful read and then a failure to read the audio file. *)
Theorem audio_to_text_outcome (audio_file language : string) :
  let out := (audio_to_text record recognize_google audio_file language).1 in
  let text := (audio_to_text record recognize_google audio_file language).2 in
  (forall t, text = Some t <->
     exists a, record audio_file = Returns a /\
       recognize_google a language = Returns t) /\
  ("Audio successfully read from file." ∈ out <->
     exists a, record audio_file = Returns a) /\
  (text = None ->
   exists line, last out = Some line /\
     (line = "Google Speech Recognition could not understand audio" \/
      (exists m, line =
         "Could not request results from Google Speech Recognition service; " +:+ m) \/
      (exists m, line = "Failed to read audio file: " +:+ m))) /\
  (forall a m, record audio_file = Returns a ->
     recognize_google a language = Raises (OtherException m) ->
     out = ["Audio successfully read from file.";
            "Failed to read audio file: " +:+ m]).
Proof.
  cbv zeta. split; [intros t; apply audio_to_text_Some|].
  unfold audio_to_text, audio_to_text_try.
  destruct (record audio_file) as [a|e]; simpl.
  - destruct (recognize_google a language) as [t|[m|m|m]] eqn:Hg; simpl.
    + split; [split; [eauto|intros _; apply list_elem_of_here]|].
      split; [done|]. intros a' m [= <-]. by rewrite Hg.
    + split; [split; [eauto|intros _; apply list_elem_of_here]|].
      split; [eauto|]. intros a' m' [= <-]. by rewrite Hg.
    + split; [split; [eauto|intros _; apply list_elem_of_here]|].
      split; [eauto 6|]. intros a' m' [= <-]. by rewrite Hg.
    + split; [split; [eauto|intros _; apply list_elem_of_here]|].
      split; [eauto 6|]. intros a' m' [= <-]. rewrite Hg. by intros [= <-].
  - split.
    { split; [|by intros [a ?]].
      intros Hin%list_elem_of_singleton. discriminate Hin. }
    split; [eauto 6|]. by intros a m [=].
Qed.

Section Generic.
Context {R : Type} `{Number R}.
Variable plot_waveform_with_keywords :
  string -> list (string * R * R) -> outcome unit.

(** When the preprocessing succeeds and no text is recognized (reading or
    recognition fails with any exception, or the recognized text is empty),
    [main] completes whatever the keyword list: its last line is the notice
    that no transcription is available, it plots nothing and reports no
    keyword. *)
Theorem main_without_transcription (input_audio_file output_audio_file : string)
    (keywords : list string) (language : string) (u : unit) :
  preprocess_audio input_audio_file output_audio_file = Returns u ->
  (forall a text, record output_audio_file = Returns a ->
     recognize_google a language = Returns text -> text = "") ->
  exists trace,
    main record recognize_google preprocess_audio wavfile_read
      plot_waveform_with_keywords
      input_audio_file output_audio_file keywords language = Completed trace /\
    last trace = Some (Text no_transcription_line) /\
    plots trace = [] /\ reported trace = [].
Proof.
  intros Hp Hno. unfold main. rewrite Hp. simpl.
  destruct (audio_to_text record recognize_google output_audio_file language)
    as [heard transcription] eqn:Ha.
  destruct (truthy transcription) eqn:Ht.
  - apply truthy_Some in Ht as (text & -> & Hne & _).
    assert ((audio_to_text record recognize_google output_audio_file language).2
            = Some text) as Hs by (by rewrite Ha).
    apply audio_to_text_Some in Hs as (a & Hr & Hg).
    by specialize (Hno a text Hr Hg).
  - eexists. split; [reflexivity|]. split; [by rewrite last_snoc|].
    by rewrite plots_app, reported_app, plots_Text, reported_Text.
Qed.


(** The causes of a crash of [main].  An exception of a library comes from
    the preprocessing, the reading of the wav file or the plot, never from
    the reading or the recognition of the speech.  A [KeyError] names a
    keyword detected in the recognized text that is no entry of the keyword
    list.  A [ZeroDivisionError] means that the wav file has sample rate 0:
    neither the scores nor the time mapper divide by zero. *)
Theorem main_crash_causes (input_audio_file output_audio_file : string)
    (keywords : list string) (language : string) (e : exception) :
  main record recognize_google preprocess_audio wavfile_read
      plot_waveform_with_keywords
      input_audio_file output_audio_file keywords language = Crashed e ->
  match e with
  | Library e' =>
      preprocess_audio input_audio_file output_audio_file = Raises e' \/
      wavfile_read output_audio_file = Raises e' \/
      exists l, plot_waveform_with_keywords output_audio_file l = Raises e'
  | Builtin (KeyError k) =>
      (k ∉ keywords) /\
      exists a text, record output_audio_file = Returns a /\
        recognize_google a language = Returns text /\
        k ∈ detections (Some text) keywords
  | Builtin ZeroDivisionError =>
      exists samples, wavfile_read output_audio_file = Returns (0, samples)
  end.
Proof.
  unfold main.
  destruct (preprocess_audio input_audio_file output_audio_file) as [u|e0] eqn:Hp;
    simpl; [|intros [= <-]; by left].
  destruct (audio_to_text record recognize_google output_audio_file language)
    as [heard transcription] eqn:Ha.
  destruct (truthy transcription) eqn:Ht; [|done].
  apply truthy_Some in Ht as (text & -> & Hne & HL).
  assert ((audio_to_text record recognize_google output_audio_file language).2
          = Some text) as Hs by (by rewrite Ha).
  apply audio_to_text_Some in Hs as (a & Hr & Hg).
  destruct (detect_keywords (Some text) keywords) as [d|e1] eqn:Hd; simpl.
  2: { intros [= <-]. apply detect_keywords_raise_inv in Hd as (k & -> & Hin & Hnin).
       split; [done|]. eauto. }
  rewrite compute_accuracy_ok. simpl.
  destruct (compute_individual_keyword_metrics_ok (keyword_positions d) keywords)
    as (m & -> & _). simpl.
  destruct (wavfile_read output_audio_file) as [[sample_rate samples]|e2] eqn:Hw;
    simpl; [|intros [= <-]; right; by left].
  unfold audio_duration_of, int_truediv.
  destruct (Z.eqb_spec sample_rate 0) as [->|Hrate]; simpl;
    [intros [= <-]; eauto|].
  rewrite keyword_intervals_in_time_ok by lia. simpl.
  match goal with
  | |- context [plot_waveform_with_keywords output_audio_file ?l] =>
      destruct (plot_waveform_with_keywords output_audio_file l) as [u'|e3] eqn:Hplot
  end; simpl; [done|].
  intros [= <-]. right. right. eauto.
Qed.

End Generic.


End CallerProperties.

(** The recognizer does not understand the audio: the run ends with the
    notice, although the keyword "Quick" would make the detector raise. *)
Lemma main_without_transcription_witness :
  example_preprocess "Telugu_Voice.mp3" "processed_audio.wav" = Returns tt /\
  (forall a text, example_record "processed_audio.wav" = Returns a ->
     example_recognize (Raises (UnknownValueError "no speech")) a "te" = Returns text ->
     text = "") /\
  exists trace,
    example_main (Raises (UnknownValueError "no speech")) 16000 32000 ["Quick"]
      = Completed trace /\
    last trace = Some (Text no_transcription_line) /\
    plots trace = [] /\ reported trace = [].
Proof.
  assert (forall a text, example_record "processed_audio.wav" = Returns a ->
     example_recognize (Raises (UnknownValueError "no speech")) a "te" = Returns text ->
     text = "") as Hno by (intros a text _ Hg; discriminate Hg).
  split; [reflexivity|]. split; [exact Hno|].
  exact (main_without_transcription example_record
           (example_recognize (Raises (UnknownValueError "no speech")))
           example_preprocess (example_wavfile 16000 32000) example_plot
           "Telugu_Voice.mp3" "processed_audio.wav" ["Quick"] "te" tt
           eq_refl Hno).
Defined.


(** A wav file of sample rate 0 ends the run at line 163. *)
Lemma main_crash_causes_witness :
  example_main (Returns "a quick fox") 0 32000 ["quick"] =
    Crashed (Builtin ZeroDivisionError) /\
  exists samples, example_wavfile 0 32000 "processed_audio.wav" = Returns (0, samples).
Proof.
  assert (example_main (Returns "a quick fox") 0 32000 ["quick"] =
            Crashed (Builtin ZeroDivisionError)) as Hrun by (vm_compute; reflexivity).
  split; [exact Hrun|].
  exact (main_crash_causes example_record
           (example_recognize (Returns "a quick fox"))
           example_preprocess (example_wavfile 0 32000) example_plot
           "Telugu_Voice.mp3" "processed_audio.wav" ["quick"] "te"
           (Builtin ZeroDivisionError) Hrun).
Defined.

